(** * Cleanflight rate controller (src/main/flight/pid.c)

    A shallow embedding of the two PID controllers of [pid.c], the integer
    one ([pidMultiWiiRewrite]) and the float one ([pidLuxFloat]), of the
    integrator reset and of the controller selector, followed by the
    properties of the specification proved or refuted on that embedding.

    Conventions.
    - C integers are [Z]; every [int32_t] operation is followed by its
      two's-complement wrap-around, narrowing assignments ([int8_t],
      [int16_t]) wrap to their width.
    - C [float] is IEEE 754 binary32, rounded to nearest even, as given by
      the Standard Library's [SpecFloat] at precision 24 and maximal
      exponent 128.
    - The file is the build with [BLACKBOX] (the diagnostic arrays
      [axisPID_P], [axisPID_I], [axisPID_D] are part of the state) and
      without [GTUNE].
    - A division whose divisor is a non-zero literal is written with the
      plain operator.  The three divisions by a run-time value
      ([cycleTime >> 4], [H_sensitivity], [dT]) go through checked
      operations in the monad [outcome]. *)

From Stdlib Require Import ZArith Bool List Lia.
From Stdlib Require Import Floats.SpecFloat.
Import ListNotations.

Local Open Scope Z_scope.

(** ** Machine integers *)

Module CInt.

(** Two's-complement reduction to a signed integer of [w] bits. *)
Definition wrap (w z : Z) : Z := (z + 2 ^ (w - 1)) mod 2 ^ w - 2 ^ (w - 1).

Definition i8 (z : Z) : Z := wrap 8 z.
Definition i16 (z : Z) : Z := wrap 16 z.
Definition i32 (z : Z) : Z := wrap 32 z.

Definition INT32_MIN : Z := - 2 ^ 31.
Definition INT32_MAX : Z := 2 ^ 31 - 1.

Definition in_i16 (z : Z) : Prop := - 2 ^ 15 <= z <= 2 ^ 15 - 1.
Definition in_i32 (z : Z) : Prop := INT32_MIN <= z <= INT32_MAX.
Definition in_u8 (z : Z) : Prop := 0 <= z <= 255.
Definition in_u16 (z : Z) : Prop := 0 <= z <= 65535.

(** [int] arithmetic of the target (32 bits). *)
Definition add (a b : Z) : Z := i32 (a + b).
Definition sub (a b : Z) : Z := i32 (a - b).
Definition mul (a b : Z) : Z := i32 (a * b).
Definition neg (a : Z) : Z := i32 (- a).
(** [a / b] for a non-zero [b]: truncation toward zero. *)
Definition div (a b : Z) : Z := i32 (Z.quot a b).
(** [a >> n] on a signed operand: arithmetic shift. *)
Definition shr (a n : Z) : Z := Z.shiftr a n.
Definition shl (a n : Z) : Z := i32 (Z.shiftl a n).

End CInt.

Declare Scope cint_scope.
Delimit Scope cint_scope with cint.
Infix "+i" := CInt.add (at level 50, left associativity) : cint_scope.
Infix "-i" := CInt.sub (at level 50, left associativity) : cint_scope.
Infix "*i" := CInt.mul (at level 40, left associativity) : cint_scope.
Infix "/i" := CInt.div (at level 40, left associativity) : cint_scope.
Infix ">>i" := CInt.shr (at level 55, left associativity) : cint_scope.
Infix "<<i" := CInt.shl (at level 55, left associativity) : cint_scope.
Local Open Scope cint_scope.

(** Modelled from the spec: [constrain] of common/maths.h, which is not
    part of the sources at hand; the clamp of an [int] to [[low, high]]. *)
Definition constrain (amt low high : Z) : Z :=
  if amt <? low then low
  else if amt >? high then high
  else amt.

(** Modelled from the spec: the macro [ABS] of common/maths.h, which is
    not part of the sources at hand; the magnitude of an [int32_t]. *)
Definition ABS (x : Z) : Z := if x >? 0 then x else CInt.neg x.

(** ** Binary32 floating point *)

Module F32.

Definition float : Type := spec_float.

Definition prec : Z := 24.
Definition emax : Z := 128.

Definition add (x y : float) : float := SFadd prec emax x y.
Definition sub (x y : float) : float := SFsub prec emax x y.
Definition mul (x y : float) : float := SFmul prec emax x y.
Definition div (x y : float) : float := SFdiv prec emax x y.
Definition ltb (x y : float) : bool := SFltb x y.
Definition leb (x y : float) : bool := SFleb x y.

(** Conversion of an integer to [float]. *)
Definition of_Z (z : Z) : float := binary_normalize prec emax z 0 false.

Definition is_nan (x : float) : bool :=
  match x with S754_nan => true | _ => false end.

(** [x == 0.0f]: both signed zeros. *)
Definition is_zero (x : float) : bool :=
  match x with S754_zero _ => true | _ => false end.

Definition is_finite (x : float) : bool :=
  match x with S754_zero _ | S754_finite _ _ _ => true | _ => false end.

Definition saturate (z : Z) : Z :=
  if z <? CInt.INT32_MIN then CInt.INT32_MIN
  else if z >? CInt.INT32_MAX then CInt.INT32_MAX
  else z.

(** [(int32_t) x]: truncation toward zero.  C leaves the conversion of
    a value outside the range undefined; the model takes what the
    conversion instruction of the target does (saturation, 0 for NaN). *)
Definition to_i32 (x : float) : Z :=
  match x with
  | S754_zero _ => 0
  | S754_nan => 0
  | S754_infinity s => if s then CInt.INT32_MIN else CInt.INT32_MAX
  | S754_finite s m e =>
      let mag := match e with
                 | Zneg p => Z.shiftr (Zpos m) (Zpos p)
                 | _ => Z.shiftl (Zpos m) e
                 end in
      saturate (if s then - mag else mag)
  end.

(** Nearest integer, ties to even, of [m * 2 ^ (- p)]. *)
Definition round_half_even (m : positive) (p : positive) : Z :=
  let d := Z.shiftl 1 (Zpos p) in
  let q := Z.shiftr (Zpos m) (Zpos p) in
  let r := Zpos m - Z.shiftl q (Zpos p) in
  match Z.compare (2 * r) d with
  | Lt => q
  | Gt => q + 1
  | Eq => if Z.even q then q else q + 1
  end.

(** [lrintf x] in the default rounding mode; the result for a NaN, an
    infinity or a value outside [long] is unspecified in C and taken
    as for [to_i32]. *)
Definition lrintf (x : float) : Z :=
  match x with
  | S754_zero _ => 0
  | S754_nan => 0
  | S754_infinity s => if s then CInt.INT32_MIN else CInt.INT32_MAX
  | S754_finite s m e =>
      let mag := match e with
                 | Zneg p => round_half_even m p
                 | _ => Z.shiftl (Zpos m) e
                 end in
      saturate (if s then - mag else mag)
  end.

Definition zero : float := S754_zero false.
Definition one : float := Eval vm_compute in of_Z 1.
Definition f3 : float := Eval vm_compute in of_Z 3.
Definition f10 : float := Eval vm_compute in of_Z 10.
Definition f50 : float := Eval vm_compute in of_Z 50.
Definition f100 : float := Eval vm_compute in of_Z 100.
Definition f250 : float := Eval vm_compute in of_Z 250.
Definition f300 : float := Eval vm_compute in of_Z 300.
Definition f500 : float := Eval vm_compute in of_Z 500.
Definition fm250 : float := Eval vm_compute in of_Z (-250).
Definition fm300 : float := Eval vm_compute in of_Z (-300).

End F32.

Abbreviation float := F32.float.

Declare Scope f32_scope.
Delimit Scope f32_scope with f32.
Infix "+f" := F32.add (at level 50, left associativity) : f32_scope.
Infix "-f" := F32.sub (at level 50, left associativity) : f32_scope.
Infix "*f" := F32.mul (at level 40, left associativity) : f32_scope.
Infix "/f" := F32.div (at level 40, left associativity) : f32_scope.
Infix "<f" := F32.ltb (at level 70, no associativity) : f32_scope.
Local Open Scope f32_scope.

(** Modelled from the spec: [constrainf] of common/maths.h, which is not
    part of the sources at hand; the clamp of a [float] to [[low, high]],
    written with the two comparisons of the [int] version.  A NaN fails
    both comparisons and is returned as it is. *)
Definition constrainf (amt low high : float) : float :=
  if amt <f low then low
  else if high <f amt then high
  else amt.

(** ** Axes and per-axis arrays *)

(** The index of a rotation axis: [FD_ROLL], [FD_PITCH], [FD_YAW] of
    common/axis.h, numbered 0, 1, 2 like [ROLL], [PITCH], [YAW] of
    rx/rx.h; the loop variable [axis] ranges over exactly these. *)
Inductive axis_t : Type := FD_ROLL | FD_PITCH | FD_YAW.

Abbreviation ROLL := FD_ROLL.
Abbreviation PITCH := FD_PITCH.
Abbreviation YAW := FD_YAW.

Definition axis_eqb (a b : axis_t) : bool :=
  match a, b with
  | FD_ROLL, FD_ROLL | FD_PITCH, FD_PITCH | FD_YAW, FD_YAW => true
  | _, _ => false
  end.

(** A C array of three elements, one per axis. *)
Record arr3 (A : Type) : Type := Arr3 { el_roll : A; el_pitch : A; el_yaw : A }.
Arguments Arr3 {A}.
Arguments el_roll {A}.
Arguments el_pitch {A}.
Arguments el_yaw {A}.

Definition get {A : Type} (a : arr3 A) (i : axis_t) : A :=
  match i with
  | FD_ROLL => el_roll a
  | FD_PITCH => el_pitch a
  | FD_YAW => el_yaw a
  end.

Definition set {A : Type} (a : arr3 A) (i : axis_t) (v : A) : arr3 A :=
  match i with
  | FD_ROLL => Arr3 v (el_pitch a) (el_yaw a)
  | FD_PITCH => Arr3 (el_roll a) v (el_yaw a)
  | FD_YAW => Arr3 (el_roll a) (el_pitch a) v
  end.

Definition fill {A : Type} (v : A) : arr3 A := Arr3 v v v.

Notation "a .[ i ]" := (get a i) (at level 1, left associativity, format "a .[ i ]").

(** ** Inputs of a cycle *)

(** The two flight-mode bits read through [FLIGHT_MODE(...)]. *)
Inductive flightModeFlags_e : Type := ANGLE_MODE | HORIZON_MODE.

(** What a cycle reads from the globals of other modules.
    [getRcStickDeflection] stands for the function of io/rc_controls.c
    (it reads the receiver data); [gyroADC] holds signed integers of at
    most 32 bits, [rcCommand] and [attitude_raw] of 16 bits, [cycleTime]
    is a [uint16_t], [PIDweight] holds [uint8_t]. *)
Record Env : Type := {
  rcCommand : arr3 Z;
  gyroADC : arr3 Z;
  gyro_scale : float;
  attitude_raw : arr3 Z;
  cycleTime : Z;
  dT : float;
  PIDweight : arr3 Z;
  FLIGHT_MODE : flightModeFlags_e -> bool;
  getRcStickDeflection : axis_t -> Z -> Z
}.

(** Indices of the gain tables used here: one per axis, and [PIDLEVEL]. *)
Inductive pidIndex_e : Type := PIDROLL | PIDPITCH | PIDYAW | PIDLEVEL.

Definition pid_of (axis : axis_t) : pidIndex_e :=
  match axis with
  | FD_ROLL => PIDROLL
  | FD_PITCH => PIDPITCH
  | FD_YAW => PIDYAW
  end.

(** The fields of [pidProfile_t] (flight/pid.h) read by the controllers:
    [uint8_t] tables [P8], [I8], [D8], [float] gains, the [uint8_t]
    horizon sensitivity and the two [uint8_t] cut-off frequencies. *)
Record pidProfile_t : Type := {
  P8 : pidIndex_e -> Z;
  I8 : pidIndex_e -> Z;
  D8 : pidIndex_e -> Z;
  P_f : arr3 float;
  I_f : arr3 float;
  D_f : arr3 float;
  A_level : float;
  H_level : float;
  H_sensitivity : Z;
  dterm_cut_hz : Z;
  pterm_cut_hz : Z
}.

Record controlRateConfig_t : Type := { rates : arr3 Z }.

Record rxConfig_t : Type := { midrc : Z }.

(** ** Outcome of a computation that divides *)

(** [Ok a dz]: the computation completed with [a]; [dz] tells whether a
    [float] division had a zero divisor (the quotient is then an
    infinity or a NaN and the computation goes on).
    [Undefined]: an integer division by zero was reached. *)
Inductive outcome (A : Type) : Type :=
| Ok (a : A) (dz : bool)
| Undefined.
Arguments Ok {A}.
Arguments Undefined {A}.

Definition ret {A : Type} (a : A) : outcome A := Ok a false.

Definition bind {A B : Type} (m : outcome A) (f : A -> outcome B) : outcome B :=
  match m with
  | Ok a d =>
      match f a with
      | Ok b d' => Ok b (d || d')
      | Undefined => Undefined
      end
  | Undefined => Undefined
  end.

Notation "x <- m ;; k" := (bind m (fun x => k))
  (at level 61, m at next level, right associativity).

(** [a / b] on [int]. *)
Definition idiv (a b : Z) : outcome Z :=
  if b =? 0 then Undefined else ret (a /i b).

(** [x / y] on [float]. *)
Definition fdiv (x y : float) : outcome float := Ok (x /f y) (F32.is_zero y).

(** The [for] loop over the three axes. *)
Definition for_axes {S : Type} (body : axis_t -> S -> outcome S) (s : S) : outcome S :=
  s0 <- body FD_ROLL s ;;
  s1 <- body FD_PITCH s0 ;;
  body FD_YAW s1.

Definition nonzero (z : Z) : bool := negb (z =? 0).

(** ** Controller state *)

(** The two functions [pid_controller] can point to. *)
Inductive pidControllerFuncPtr : Type :=
| fn_pidMultiWiiRewrite
| fn_pidLuxFloat.

(** The argument of [pidSetController]: the two values the [switch]
    names, and any other value of the enumeration. *)
Inductive pidControllerType_e : Type :=
| PID_CONTROLLER_MWREWRITE
| PID_CONTROLLER_LUX_FLOAT
| PID_CONTROLLER_other (n : Z).

Section Controller.

(** [GYRO_I_MAX] of flight/pid.h. *)
Variable GYRO_I_MAX : Z.

(** [filterStatePt1_t] and [filterApplyPt1] of common/filter.h: the
    filter takes the input, the state it updates in place, the cut-off
    frequency and the cycle duration, and returns the filtered value. *)
Variable filterStatePt1_t : Type.
Variable filterApplyPt1 : float -> filterStatePt1_t -> Z -> float -> float * filterStatePt1_t.

(** Everything the file keeps between two calls: the output [axisPID],
    the diagnostic arrays, the file-level statics, and the function-level
    statics [lastError], [delta1], [delta2] of each controller. *)
Record State : Type := {
  axisPID : arr3 Z;
  axisPID_P : arr3 Z;
  axisPID_I : arr3 Z;
  axisPID_D : arr3 Z;
  errorGyroI : arr3 Z;
  errorGyroIf : arr3 float;
  PTermState : arr3 filterStatePt1_t;
  DTermState : arr3 filterStatePt1_t;
  lux_lastError : arr3 float;
  lux_delta1 : arr3 float;
  lux_delta2 : arr3 float;
  mw_lastError : arr3 Z;
  mw_delta1 : arr3 Z;
  mw_delta2 : arr3 Z;
  pid_controller : pidControllerFuncPtr
}.

(** The state at start-up: C zero-initialises statics, and
    [pid_controller] is initialised to [pidMultiWiiRewrite]. *)
Definition initial (filter0 : filterStatePt1_t) : State := {|
  axisPID := fill 0;
  axisPID_P := fill 0;
  axisPID_I := fill 0;
  axisPID_D := fill 0;
  errorGyroI := fill 0;
  errorGyroIf := fill F32.zero;
  PTermState := fill filter0;
  DTermState := fill filter0;
  lux_lastError := fill F32.zero;
  lux_delta1 := fill F32.zero;
  lux_delta2 := fill F32.zero;
  mw_lastError := fill 0;
  mw_delta1 := fill 0;
  mw_delta2 := fill 0;
  pid_controller := fn_pidMultiWiiRewrite
|}.

(** *** pidResetErrorGyro *)

Definition pidResetErrorGyro (st : State) : State :=
  let errorGyroI0 := set (set (set (errorGyroI st) ROLL 0) PITCH 0) YAW 0 in
  let errorGyroIf0 :=
    set (set (set (errorGyroIf st) ROLL F32.zero) PITCH F32.zero) YAW F32.zero in
  {| axisPID := axisPID st;
     axisPID_P := axisPID_P st;
     axisPID_I := axisPID_I st;
     axisPID_D := axisPID_D st;
     errorGyroI := errorGyroI0;
     errorGyroIf := errorGyroIf0;
     PTermState := PTermState st;
     DTermState := DTermState st;
     lux_lastError := lux_lastError st;
     lux_delta1 := lux_delta1 st;
     lux_delta2 := lux_delta2 st;
     mw_lastError := mw_lastError st;
     mw_delta1 := mw_delta1 st;
     mw_delta2 := mw_delta2 st;
     pid_controller := pid_controller st |}.

(** *** pidSetController *)

Definition pidSetController (type : pidControllerType_e) (st : State) : State :=
  let f := match type with
           | PID_CONTROLLER_LUX_FLOAT => fn_pidLuxFloat
           | PID_CONTROLLER_MWREWRITE | PID_CONTROLLER_other _ => fn_pidMultiWiiRewrite
           end in
  {| axisPID := axisPID st;
     axisPID_P := axisPID_P st;
     axisPID_I := axisPID_I st;
     axisPID_D := axisPID_D st;
     errorGyroI := errorGyroI st;
     errorGyroIf := errorGyroIf st;
     PTermState := PTermState st;
     DTermState := DTermState st;
     lux_lastError := lux_lastError st;
     lux_delta1 := lux_delta1 st;
     lux_delta2 := lux_delta2 st;
     mw_lastError := mw_lastError st;
     mw_delta1 := mw_delta1 st;
     mw_delta2 := mw_delta2 st;
     pid_controller := f |}.

Section Cycle.

(** The globals read by a cycle and the four arguments of a controller. *)
Variable env : Env.
Variable pidProfile : pidProfile_t.
Variable controlRateConfig : controlRateConfig_t.
Variable max_angle_inclination : Z.
Variable rxConfig : rxConfig_t.

(** The stick positions and [mostDeflectedPos], computed by the same
    lines at the top of both controllers. *)
Definition mostDeflectedPos : Z :=
  let stickPosAil := getRcStickDeflection env FD_ROLL (midrc rxConfig) in
  let stickPosEle := getRcStickDeflection env FD_PITCH (midrc rxConfig) in
  if ABS stickPosAil >? ABS stickPosEle then ABS stickPosAil else ABS stickPosEle.

(** A call of the filter on an [int32_t] term: the argument is converted
    to [float] and the result back. *)
Definition filter_i32 (x : Z) (f : filterStatePt1_t) (f_cut : Z) : Z * filterStatePt1_t :=
  let r := filterApplyPt1 (F32.of_Z x) f f_cut (dT env) in
  (F32.to_i32 (fst r), snd r).

(** *** pidMultiWiiRewrite *)

(** Lines 220-242: [horizonLevelStrength], an [int8_t]. *)
Definition mw_horizonLevelStrength : Z :=
  if FLIGHT_MODE env HORIZON_MODE then
    let horizonLevelStrength := CInt.i8 ((500 -i mostDeflectedPos) /i 5) in
    CInt.i8 (constrain
      ((10 *i (horizonLevelStrength -i 100) *i (10 *i D8 pidProfile PIDLEVEL /i 80) /i 100) +i 100)
      0 100)
  else 100.

(** Lines 246-265: the desired rate [AngleRateTmp]. *)
Definition mw_AngleRateTmp (horizonLevelStrength : Z) (axis : axis_t) : Z :=
  let rate := (rates controlRateConfig).[axis] in
  if axis_eqb axis FD_YAW then
    ((rate +i 27) *i (rcCommand env).[YAW]) >>i 5
  else
    let errorAngle :=
      constrain (2 *i (rcCommand env).[axis])
        (CInt.neg max_angle_inclination) max_angle_inclination
      -i (attitude_raw env).[axis] in
    if negb (FLIGHT_MODE env ANGLE_MODE) then
      let AngleRateTmp := ((rate +i 27) *i (rcCommand env).[axis]) >>i 4 in
      if FLIGHT_MODE env HORIZON_MODE then
        AngleRateTmp
        +i ((errorAngle *i I8 pidProfile PIDLEVEL *i horizonLevelStrength /i 100) >>i 4)
      else AngleRateTmp
    else
      (errorAngle *i P8 pidProfile PIDLEVEL) >>i 4.

(** Line 271. *)
Definition mw_RateError (horizonLevelStrength : Z) (axis : axis_t) : Z :=
  mw_AngleRateTmp horizonLevelStrength axis -i ((gyroADC env).[axis] /i 4).

(** Lines 274-279: the P term and the state of its filter. *)
Definition mw_PTerm (RateError : Z) (axis : axis_t) (f : filterStatePt1_t)
  : Z * filterStatePt1_t :=
  let PTerm :=
    (RateError *i P8 pidProfile (pid_of axis) *i (PIDweight env).[axis] /i 100) >>i 7 in
  if nonzero (pterm_cut_hz pidProfile) then
    filter_i32 PTerm f (pterm_cut_hz pidProfile)
  else (PTerm, f).

(** Lines 286-290: the integrator after accumulation and clamp. *)
Definition mw_errorGyroI (RateError : Z) (axis : axis_t) (acc : Z) : Z :=
  let acc1 :=
    acc +i (((RateError *i cycleTime env) >>i 11) *i I8 pidProfile (pid_of axis)) in
  constrain acc1 (CInt.neg GYRO_I_MAX <<i 13) (GYRO_I_MAX <<i 13).

(** Line 291. *)
Definition mw_ITerm (acc : Z) : Z := acc >>i 13.

(** Lines 294 and 299: the time-corrected delta. *)
Definition mw_delta (RateError lastError : Z) : outcome Z :=
  let delta := RateError -i lastError in
  q <- idiv 65535 (cycleTime env >>i 4) ;;
  ret ((delta *i q) >>i 6).

(** Lines 301-308: the moving sum and the state of its filter. *)
Definition mw_deltaSum (delta1 delta2 delta : Z) (f : filterStatePt1_t)
  : Z * filterStatePt1_t :=
  let deltaSum := delta1 +i delta2 +i delta in
  if nonzero (dterm_cut_hz pidProfile) then
    filter_i32 deltaSum f (dterm_cut_hz pidProfile)
  else (deltaSum, f).

(** Line 310. *)
Definition mw_DTerm (deltaSum : Z) (axis : axis_t) : Z :=
  (deltaSum *i D8 pidProfile (pid_of axis) *i (PIDweight env).[axis] /i 100) >>i 8.

(** Lines 246-325: the body of the loop for one axis. *)
Definition mw_axis (horizonLevelStrength : Z) (axis : axis_t) (st : State)
  : outcome State :=
  let RateError := mw_RateError horizonLevelStrength axis in
  let PTerm := mw_PTerm RateError axis (PTermState st).[axis] in
  let errorGyroI1 := mw_errorGyroI RateError axis (errorGyroI st).[axis] in
  let ITerm := mw_ITerm errorGyroI1 in
  delta <- mw_delta RateError (mw_lastError st).[axis] ;;
  let deltaSum :=
    mw_deltaSum (mw_delta1 st).[axis] (mw_delta2 st).[axis] delta (DTermState st).[axis] in
  let DTerm := mw_DTerm (fst deltaSum) axis in
  ret {| axisPID := set (axisPID st) axis (CInt.i16 (fst PTerm +i ITerm +i DTerm));
         axisPID_P := set (axisPID_P st) axis (fst PTerm);
         axisPID_I := set (axisPID_I st) axis ITerm;
         axisPID_D := set (axisPID_D st) axis DTerm;
         errorGyroI := set (errorGyroI st) axis errorGyroI1;
         errorGyroIf := errorGyroIf st;
         PTermState := set (PTermState st) axis (snd PTerm);
         DTermState := set (DTermState st) axis (snd deltaSum);
         lux_lastError := lux_lastError st;
         lux_delta1 := lux_delta1 st;
         lux_delta2 := lux_delta2 st;
         mw_lastError := set (mw_lastError st) axis RateError;
         mw_delta1 := set (mw_delta1 st) axis delta;
         mw_delta2 := set (mw_delta2 st) axis (mw_delta1 st).[axis];
         pid_controller := pid_controller st |}.

Definition pidMultiWiiRewrite (st : State) : outcome State :=
  for_axes (mw_axis mw_horizonLevelStrength) st.

(** *** pidLuxFloat *)

(** Lines 98-120: [horizonLevelStrength], a [float]. *)
Definition lux_horizonLevelStrength : outcome float :=
  if FLIGHT_MODE env HORIZON_MODE then
    let horizonLevelStrength := F32.of_Z (500 -i mostDeflectedPos) /f F32.f500 in
    if H_sensitivity pidProfile =? 0 then
      ret F32.zero
    else
      q <- idiv 100 (H_sensitivity pidProfile) ;;
      ret (constrainf
             (((horizonLevelStrength -f F32.one) *f F32.of_Z q) +f F32.one)
             F32.zero F32.one)
  else ret F32.one.

(** Lines 125-146: the desired rate [AngleRate]. *)
Definition lux_AngleRate (horizonLevelStrength : float) (axis : axis_t) : float :=
  let rate := (rates controlRateConfig).[axis] in
  if axis_eqb axis FD_YAW then
    F32.of_Z ((rate +i 10) *i (rcCommand env).[YAW]) /f F32.f50
  else
    let errorAngle :=
      F32.of_Z
        (constrain ((rcCommand env).[axis])
           (CInt.neg max_angle_inclination) max_angle_inclination
         -i (attitude_raw env).[axis])
      /f F32.f10 in
    if FLIGHT_MODE env ANGLE_MODE then
      errorAngle *f A_level pidProfile
    else
      let AngleRate := F32.of_Z ((rate +i 20) *i (rcCommand env).[axis]) /f F32.f50 in
      if FLIGHT_MODE env HORIZON_MODE then
        AngleRate +f errorAngle *f H_level pidProfile *f horizonLevelStrength
      else AngleRate.

(** Lines 148-154. *)
Definition lux_RateError (horizonLevelStrength : float) (axis : axis_t) : float :=
  let gyroRate := F32.of_Z (gyroADC env).[axis] *f gyro_scale env in
  lux_AngleRate horizonLevelStrength axis -f gyroRate.

(** Lines 157-162: the P term and the state of its filter. *)
Definition lux_PTerm (RateError : float) (axis : axis_t) (f : filterStatePt1_t)
  : float * filterStatePt1_t :=
  let PTerm :=
    RateError *f (P_f pidProfile).[axis] *f F32.of_Z (PIDweight env).[axis] /f F32.f100 in
  if nonzero (pterm_cut_hz pidProfile) then
    filterApplyPt1 PTerm f (pterm_cut_hz pidProfile) (dT env)
  else (PTerm, f).

(** Line 165: the integrator after accumulation and clamp. *)
Definition lux_errorGyroIf (RateError : float) (axis : axis_t) (acc : float) : float :=
  constrainf
    (acc +f RateError *f dT env *f (I_f pidProfile).[axis] *f F32.f10)
    F32.fm250 F32.f250.

(** Lines 172 and 177: the time-corrected delta. *)
Definition lux_delta (RateError lastError : float) : outcome float :=
  let delta := RateError -f lastError in
  r <- fdiv F32.one (dT env) ;;
  ret (delta *f r).

(** Lines 179-186: the moving sum and the state of its filter. *)
Definition lux_deltaSum (delta1 delta2 delta : float) (f : filterStatePt1_t)
  : float * filterStatePt1_t :=
  let deltaSum := delta1 +f delta2 +f delta in
  if nonzero (dterm_cut_hz pidProfile) then
    filterApplyPt1 deltaSum f (dterm_cut_hz pidProfile) (dT env)
  else (deltaSum, f).

(** Line 188. *)
Definition lux_DTerm (deltaSum : float) (axis : axis_t) : float :=
  constrainf
    ((deltaSum /f F32.f3) *f (D_f pidProfile).[axis] *f F32.of_Z (PIDweight env).[axis]
     /f F32.f100)
    F32.fm300 F32.f300.

(** Lines 125-203: the body of the loop for one axis. *)
Definition lux_axis (horizonLevelStrength : float) (axis : axis_t) (st : State)
  : outcome State :=
  let RateError := lux_RateError horizonLevelStrength axis in
  let PTerm := lux_PTerm RateError axis (PTermState st).[axis] in
  let errorGyroIf1 := lux_errorGyroIf RateError axis (errorGyroIf st).[axis] in
  let ITerm := errorGyroIf1 in
  delta <- lux_delta RateError (lux_lastError st).[axis] ;;
  let deltaSum :=
    lux_deltaSum (lux_delta1 st).[axis] (lux_delta2 st).[axis] delta (DTermState st).[axis] in
  let DTerm := lux_DTerm (fst deltaSum) axis in
  ret {| axisPID :=
           set (axisPID st) axis
             (CInt.i16 (constrain (F32.lrintf (fst PTerm +f ITerm +f DTerm)) (-1000) 1000));
         axisPID_P := set (axisPID_P st) axis (F32.to_i32 (fst PTerm));
         axisPID_I := set (axisPID_I st) axis (F32.to_i32 ITerm);
         axisPID_D := set (axisPID_D st) axis (F32.to_i32 DTerm);
         errorGyroI := errorGyroI st;
         errorGyroIf := set (errorGyroIf st) axis errorGyroIf1;
         PTermState := set (PTermState st) axis (snd PTerm);
         DTermState := set (DTermState st) axis (snd deltaSum);
         lux_lastError := set (lux_lastError st) axis RateError;
         lux_delta1 := set (lux_delta1 st) axis delta;
         lux_delta2 := set (lux_delta2 st) axis (lux_delta1 st).[axis];
         mw_lastError := mw_lastError st;
         mw_delta1 := mw_delta1 st;
         mw_delta2 := mw_delta2 st;
         pid_controller := pid_controller st |}.

Definition pidLuxFloat (st : State) : outcome State :=
  horizonLevelStrength <- lux_horizonLevelStrength ;;
  for_axes (lux_axis horizonLevelStrength) st.

(** Modelled from the spec: the call through the pointer
    [pid_controller], whose call site is not part of the sources at
    hand; once per cycle the scheduler invokes whichever controller is
    currently selected. *)
Definition pid_controller_call (st : State) : outcome State :=
  match pid_controller st with
  | fn_pidMultiWiiRewrite => pidMultiWiiRewrite st
  | fn_pidLuxFloat => pidLuxFloat st
  end.

End Cycle.

(** *** Sequences of operations *)

(** What the rest of the firmware can do with this file. *)
Inductive op : Type :=
| OpCycle (env : Env) (pidProfile : pidProfile_t)
    (controlRateConfig : controlRateConfig_t) (max_angle_inclination : Z)
    (rxConfig : rxConfig_t)
| OpReset
| OpSetController (type : pidControllerType_e).

Definition run_op (o : op) (st : State) : outcome State :=
  match o with
  | OpCycle env pidProfile controlRateConfig max_angle_inclination rxConfig =>
      pid_controller_call env pidProfile controlRateConfig max_angle_inclination rxConfig st
  | OpReset => ret (pidResetErrorGyro st)
  | OpSetController type => ret (pidSetController type st)
  end.

Fixpoint run (ops : list op) (st : State) : outcome State :=
  match ops with
  | [] => ret st
  | o :: ops' => st' <- run_op o st ;; run ops' st'
  end.

End Controller.

Arguments Build_State {filterStatePt1_t}.
Arguments axisPID {filterStatePt1_t}.
Arguments axisPID_P {filterStatePt1_t}.
Arguments axisPID_I {filterStatePt1_t}.
Arguments axisPID_D {filterStatePt1_t}.
Arguments errorGyroI {filterStatePt1_t}.
Arguments errorGyroIf {filterStatePt1_t}.
Arguments PTermState {filterStatePt1_t}.
Arguments DTermState {filterStatePt1_t}.
Arguments lux_lastError {filterStatePt1_t}.
Arguments lux_delta1 {filterStatePt1_t}.
Arguments lux_delta2 {filterStatePt1_t}.
Arguments mw_lastError {filterStatePt1_t}.
Arguments mw_delta1 {filterStatePt1_t}.
Arguments mw_delta2 {filterStatePt1_t}.
Arguments pid_controller {filterStatePt1_t}.
Arguments initial {filterStatePt1_t}.
Arguments pidResetErrorGyro {filterStatePt1_t}.
Arguments pidSetController {filterStatePt1_t}.
Arguments filter_i32 {filterStatePt1_t}.
Arguments mw_PTerm {filterStatePt1_t}.
Arguments mw_deltaSum {filterStatePt1_t}.
Arguments mw_axis GYRO_I_MAX {filterStatePt1_t}.
Arguments pidMultiWiiRewrite GYRO_I_MAX {filterStatePt1_t}.
Arguments lux_PTerm {filterStatePt1_t}.
Arguments lux_deltaSum {filterStatePt1_t}.
Arguments lux_axis {filterStatePt1_t}.
Arguments pidLuxFloat {filterStatePt1_t}.
Arguments pid_controller_call GYRO_I_MAX {filterStatePt1_t}.
Arguments run_op GYRO_I_MAX {filterStatePt1_t}.
Arguments run GYRO_I_MAX {filterStatePt1_t}.

(** The entries of every per-axis array at one axis: what the body of
    the loop for that axis can read and write. *)
Definition slot {F : Type} (st : State F) (a : axis_t) :=
  ((axisPID st).[a], (axisPID_P st).[a], (axisPID_I st).[a], (axisPID_D st).[a],
   (errorGyroI st).[a], (errorGyroIf st).[a], (PTermState st).[a], (DTermState st).[a],
   (lux_lastError st).[a], (lux_delta1 st).[a], (lux_delta2 st).[a],
   (mw_lastError st).[a], (mw_delta1 st).[a], (mw_delta2 st).[a]).

(** A loop body is local to its axis when it leaves the slots of the
    other axes alone and its effect on its own slot depends on that
    slot only. *)
Definition axis_local {F : Type} (body : axis_t -> State F -> outcome (State F)) : Prop :=
  (forall a s s' d, body a s = Ok s' d ->
     pid_controller s' = pid_controller s /\
     forall b, b <> a -> slot s' b = slot s b) /\
  (forall a s1 s2 s1' d, slot s1 a = slot s2 a -> body a s1 = Ok s1' d ->
     exists s2', body a s2 = Ok s2' d /\ slot s2' a = slot s1' a).

(** The time-corrected delta of the integer controller when the
    division is defined. *)
Definition mw_delta_val (env : Env) (RateError lastError : Z) : Z :=
  ((RateError -i lastError) *i (65535 /i (cycleTime env >>i 4))) >>i 6.

(** The time-corrected delta of the float controller. *)
Definition lux_delta_val (env : Env) (RateError lastError : float) : float :=
  (RateError -f lastError) *f (F32.one /f dT env).

(** ** Variations of the inputs *)

(** The inputs with the angle-hold flag set to [b]. *)
Definition Env_set_angle_mode (b : bool) (e : Env) : Env := {|
  rcCommand := rcCommand e;
  gyroADC := gyroADC e;
  gyro_scale := gyro_scale e;
  attitude_raw := attitude_raw e;
  cycleTime := cycleTime e;
  dT := dT e;
  PIDweight := PIDweight e;
  FLIGHT_MODE := fun f =>
    match f with
    | ANGLE_MODE => b
    | HORIZON_MODE => FLIGHT_MODE e HORIZON_MODE
    end;
  getRcStickDeflection := getRcStickDeflection e
|}.

(** The inputs with the attitude estimate replaced by [v]. *)
Definition Env_set_attitude_raw (v : arr3 Z) (e : Env) : Env := {|
  rcCommand := rcCommand e;
  gyroADC := gyroADC e;
  gyro_scale := gyro_scale e;
  attitude_raw := v;
  cycleTime := cycleTime e;
  dT := dT e;
  PIDweight := PIDweight e;
  FLIGHT_MODE := FLIGHT_MODE e;
  getRcStickDeflection := getRcStickDeflection e
|}.

(** ** The D term as the specification words it *)

(** Integer controller: the moving sum divided by 3 before the gain and
    the weight factor are applied. *)
Definition mw_DTerm_averaged (env : Env) (pidProfile : pidProfile_t) (deltaSum : Z)
  (axis : axis_t) : Z :=
  ((deltaSum /i 3) *i D8 pidProfile (pid_of axis) *i (PIDweight env).[axis] /i 100) >>i 8.

(** Float controller: the averaged sum clamped before the gain and the
    weight factor are applied. *)
Definition lux_DTerm_clamped_first (env : Env) (pidProfile : pidProfile_t)
  (deltaSum : float) (axis : axis_t) : float :=
  constrainf (deltaSum /f F32.f3) F32.fm300 F32.f300
  *f (D_f pidProfile).[axis] *f F32.of_Z (PIDweight env).[axis] /f F32.f100.

(** ** Windup limits *)

(** [|x| <= GYRO_I_MAX << 13]. *)
Definition within_I (GYRO_I_MAX x : Z) : Prop := Z.abs x <= Z.shiftl GYRO_I_MAX 13.

(** [x] does not exceed [limit] in magnitude: the comparison
    [limit < |x|] fails, and [|x| <= limit] holds unless [x] is a NaN
    (on which every comparison fails). *)
Definition within_f (limit x : float) : Prop :=
  (limit <f SFabs x) = false /\
  (F32.is_nan x = false -> F32.leb (SFabs x) limit = true).

Definition windup_ok {F : Type} (GYRO_I_MAX : Z) (st : State F) : Prop :=
  forall a,
    within_I GYRO_I_MAX (errorGyroI st).[a] /\ within_f F32.f250 (errorGyroIf st).[a].

(** ** Finite checks *)

(** The integers [lo], [lo + 1], ..., [lo + n - 1]. *)
Definition Zrange (lo : Z) (n : nat) : list Z :=
  map (fun k => lo + Z.of_nat k) (seq 0 n).

(** The same [float], bit for bit. *)
Definition same_float (x y : float) : bool :=
  match x, y with
  | S754_zero a, S754_zero b => Bool.eqb a b
  | S754_infinity a, S754_infinity b => Bool.eqb a b
  | S754_nan, S754_nan => true
  | S754_finite a m e, S754_finite b m' e' => Bool.eqb a b && Pos.eqb m m' && Z.eqb e e'
  | _, _ => false
  end.

(** ** A concrete filter and concrete inputs *)

Module Pt1.

(** Modelled from the spec: the low-pass filter primitive of
    common/filter.c, which is not part of the sources at hand; a
    single-pole filter with explicit per-instance state, whose time
    constant [RC] is derived from the cut-off frequency on first use. *)
Record filterStatePt1_t : Type := { state : float; RC : float }.

Definition f2 : float := Eval vm_compute in F32.of_Z 2.

(** [(float) M_PI]. *)
Definition pi : float := S754_finite false 13176795 (-22).

Definition filterApplyPt1 (input : float) (filter : filterStatePt1_t) (f_cut : Z)
  (dT : float) : float * filterStatePt1_t :=
  let RC1 :=
    if F32.is_zero (RC filter) then F32.one /f (f2 *f pi *f F32.of_Z f_cut)
    else RC filter in
  let state1 := state filter +f dT /f (RC1 +f dT) *f (input -f state filter) in
  (state1, {| state := state1; RC := RC1 |}).

Definition zero : filterStatePt1_t := {| state := F32.zero; RC := F32.zero |}.

End Pt1.

Module Sample.

(** A value for [GYRO_I_MAX], the windup limit of the integer
    integrator in units of the I term. *)
Definition GYRO_I_MAX : Z := 256.

(** 0.001 s, the duration of a cycle of 1000 microseconds. *)
Definition dT_1ms : float := Eval vm_compute in (F32.of_Z 1 /f F32.of_Z 1000).

(** Sticks centred, no rotation, level attitude, rate mode. *)
Definition env0 : Env := {|
  rcCommand := fill 0;
  gyroADC := fill 0;
  gyro_scale := F32.one;
  attitude_raw := fill 0;
  cycleTime := 1000;
  dT := dT_1ms;
  PIDweight := fill 100;
  FLIGHT_MODE := fun _ => false;
  getRcStickDeflection := fun _ _ => 0
|}.

Definition profile0 : pidProfile_t := {|
  P8 := fun _ => 40;
  I8 := fun _ => 30;
  D8 := fun i => match i with PIDLEVEL => 100 | _ => 23 end;
  P_f := fill F32.one;
  I_f := fill F32.one;
  D_f := fill F32.one;
  A_level := F32.one;
  H_level := F32.one;
  H_sensitivity := 75;
  dterm_cut_hz := 0;
  pterm_cut_hz := 0
|}.

Definition rates0 : controlRateConfig_t := {| rates := fill 0 |}.

Definition rx0 : rxConfig_t := {| midrc := 1500 |}.

Definition init : State Pt1.filterStatePt1_t := initial Pt1.zero.

Definition set_rcCommand (v : arr3 Z) (e : Env) : Env := {|
  rcCommand := v;
  gyroADC := gyroADC e;
  gyro_scale := gyro_scale e;
  attitude_raw := attitude_raw e;
  cycleTime := cycleTime e;
  dT := dT e;
  PIDweight := PIDweight e;
  FLIGHT_MODE := FLIGHT_MODE e;
  getRcStickDeflection := getRcStickDeflection e
|}.

Definition set_gyroADC (v : arr3 Z) (e : Env) : Env := {|
  rcCommand := rcCommand e;
  gyroADC := v;
  gyro_scale := gyro_scale e;
  attitude_raw := attitude_raw e;
  cycleTime := cycleTime e;
  dT := dT e;
  PIDweight := PIDweight e;
  FLIGHT_MODE := FLIGHT_MODE e;
  getRcStickDeflection := getRcStickDeflection e
|}.

Definition set_cycleTime (v : Z) (t : float) (e : Env) : Env := {|
  rcCommand := rcCommand e;
  gyroADC := gyroADC e;
  gyro_scale := gyro_scale e;
  attitude_raw := attitude_raw e;
  cycleTime := v;
  dT := t;
  PIDweight := PIDweight e;
  FLIGHT_MODE := FLIGHT_MODE e;
  getRcStickDeflection := getRcStickDeflection e
|}.

Definition set_FLIGHT_MODE (v : flightModeFlags_e -> bool) (e : Env) : Env := {|
  rcCommand := rcCommand e;
  gyroADC := gyroADC e;
  gyro_scale := gyro_scale e;
  attitude_raw := attitude_raw e;
  cycleTime := cycleTime e;
  dT := dT e;
  PIDweight := PIDweight e;
  FLIGHT_MODE := v;
  getRcStickDeflection := getRcStickDeflection e
|}.

Definition set_stick (v : Z) (e : Env) : Env := {|
  rcCommand := rcCommand e;
  gyroADC := gyroADC e;
  gyro_scale := gyro_scale e;
  attitude_raw := attitude_raw e;
  cycleTime := cycleTime e;
  dT := dT e;
  PIDweight := PIDweight e;
  FLIGHT_MODE := FLIGHT_MODE e;
  getRcStickDeflection := fun _ _ => v
|}.

End Sample.

Module Inputs.

Import Sample.

(** Full yaw stick with the highest yaw rate setting of the example. *)
Definition env_yaw : Env := set_rcCommand (Arr3 0 0 500) env0.
Definition rates100 : controlRateConfig_t := {| rates := fill 100 |}.

(** A roll rotation measured with centred sticks. *)
Definition env_gyro : Env := set_gyroADC (Arr3 400 0 0) env0.

(** A cycle shorter than 16 microseconds. *)
Definition dT_15us : float := Eval vm_compute in (F32.of_Z 15 /f F32.of_Z 1000000).
Definition env_short : Env := set_cycleTime 15 dT_15us env0.

(** A cycle of duration zero. *)
Definition env_zero : Env := set_cycleTime 0 F32.zero env0.

(** Horizon mode with both sticks deflected by [v]. *)
Definition env_horizon (v : Z) : Env :=
  set_stick v
    (set_FLIGHT_MODE (fun f => match f with HORIZON_MODE => true | ANGLE_MODE => false end)
       env0).

(** The example profile with another horizon sensitivity: [s] for the
    integer controller ([D8[PIDLEVEL]]) and for the float controller
    ([H_sensitivity]). *)
Definition profile_sensitivity (s : Z) : pidProfile_t := {|
  P8 := P8 profile0;
  I8 := I8 profile0;
  D8 := fun i => match i with PIDLEVEL => s | _ => D8 profile0 i end;
  P_f := P_f profile0;
  I_f := I_f profile0;
  D_f := D_f profile0;
  A_level := A_level profile0;
  H_level := H_level profile0;
  H_sensitivity := s;
  dterm_cut_hz := dterm_cut_hz profile0;
  pterm_cut_hz := pterm_cut_hz profile0
|}.

(** The example profile with a float D gain of 0.5 on every axis. *)
Definition half : float := Eval vm_compute in (F32.of_Z 1 /f F32.of_Z 2).

Definition profile_half_D : pidProfile_t := {|
  P8 := P8 profile0;
  I8 := I8 profile0;
  D8 := D8 profile0;
  P_f := P_f profile0;
  I_f := I_f profile0;
  D_f := fill half;
  A_level := A_level profile0;
  H_level := H_level profile0;
  H_sensitivity := H_sensitivity profile0;
  dterm_cut_hz := dterm_cut_hz profile0;
  pterm_cut_hz := pterm_cut_hz profile0
|}.

(** A roll rotation of -3 degrees per second with centred sticks. *)
Definition env_gyro3 : Env := set_gyroADC (Arr3 (-3) 0 0) env0.

End Inputs.

Module Runs.

Import Sample.

(** A few cycles of both controllers around a reset, with a steady
    yaw command. *)
Definition cycle_yaw : op :=
  OpCycle Inputs.env_yaw profile0 Inputs.rates100 500 rx0.

Definition mixed : list op :=
  [cycle_yaw; cycle_yaw; OpSetController PID_CONTROLLER_LUX_FLOAT; cycle_yaw;
   OpReset; cycle_yaw; OpSetController PID_CONTROLLER_MWREWRITE; cycle_yaw].

End Runs.

(** ** Selection over a sequence of operations *)

(** The function [pidSetController] selects for a value of its argument:
    the [switch] sends every value but [PID_CONTROLLER_LUX_FLOAT] to
    [pidMultiWiiRewrite]. *)
Definition controller_of_type (type : pidControllerType_e) : pidControllerFuncPtr :=
  match type with
  | PID_CONTROLLER_LUX_FLOAT => fn_pidLuxFloat
  | PID_CONTROLLER_MWREWRITE | PID_CONTROLLER_other _ => fn_pidMultiWiiRewrite
  end.

(** The controller selected after [ops], starting from [c]: the one of
    the last [OpSetController], or [c] when there is none. *)
Fixpoint selected (ops : list op) (c : pidControllerFuncPtr) : pidControllerFuncPtr :=
  match ops with
  | [] => c
  | OpSetController type :: ops' => selected ops' (controller_of_type type)
  | _ :: ops' => selected ops' c
  end.

(** ** Increments of the float integrator *)

(** Line 165: what a cycle of [pidLuxFloat] on these inputs adds to
    [errorGyroIf[axis]] before the clamp,
    [RateError * dT * pidProfile->I_f[axis] * 10].  It is computed from
    the inputs of the cycle alone. *)
Definition lux_increment (env : Env) (pidProfile : pidProfile_t)
  (controlRateConfig : controlRateConfig_t) (max_angle_inclination : Z)
  (horizonLevelStrength : float) (axis : axis_t) : float :=
  lux_RateError env pidProfile controlRateConfig max_angle_inclination
    horizonLevelStrength axis
  *f dT env *f (I_f pidProfile).[axis] *f F32.f10.

(** The inputs of the operation [o] give [pidLuxFloat] an increment on
    [axis] that is a number, not a NaN.  Resets and selections have no
    inputs. *)
Definition increment_is_number (o : op) (axis : axis_t) : bool :=
  match o with
  | OpCycle env pidProfile controlRateConfig max_angle_inclination rxConfig =>
      match lux_horizonLevelStrength env pidProfile rxConfig with
      | Ok horizonLevelStrength _ =>
          negb (F32.is_nan
                  (lux_increment env pidProfile controlRateConfig max_angle_inclination
                     horizonLevelStrength axis))
      | Undefined => true
      end
  | OpReset | OpSetController _ => true
  end.

(** Over the sequence [ops], started with the controller [c] selected,
    every cycle that [pidLuxFloat] runs has an increment on [axis] that
    is a number.  The cycles that [pidMultiWiiRewrite] runs are not
    looked at. *)
Fixpoint float_cycles_add_numbers (c : pidControllerFuncPtr) (ops : list op)
  (axis : axis_t) : bool :=
  match ops with
  | [] => true
  | OpSetController type :: ops' =>
      float_cycles_add_numbers (controller_of_type type) ops' axis
  | OpReset :: ops' => float_cycles_add_numbers c ops' axis
  | o :: ops' =>
      match c with
      | fn_pidLuxFloat => increment_is_number o axis
      | fn_pidMultiWiiRewrite => true
      end
      && float_cycles_add_numbers c ops' axis
  end.

(** The inputs with other stick commands. *)
Definition Env_set_rcCommand(v : arr3 Z) (e : Env) : Env := {|
  rcCommand := v;
  gyroADC := gyroADC e;
  gyro_scale := gyro_scale e;
  attitude_raw := attitude_raw e;
  cycleTime := cycleTime e;
  dT := dT e;
  PIDweight := PIDweight e;
  FLIGHT_MODE := FLIGHT_MODE e;
  getRcStickDeflection := getRcStickDeflection e
|}.

Module More.

Import Sample.

(** The example profile with both low-pass filters at 17 Hz. *)
Definition profile_filtered : pidProfile_t := {|
  P8 := P8 profile0;
  I8 := I8 profile0;
  D8 := D8 profile0;
  P_f := P_f profile0;
  I_f := I_f profile0;
  D_f := D_f profile0;
  A_level := A_level profile0;
  H_level := H_level profile0;
  H_sensitivity := H_sensitivity profile0;
  dterm_cut_hz := 17;
  pterm_cut_hz := 17
|}.

(** A filter that ignores its input, to compare with the PT1 filter. *)
Definition filter_hold (input : float) (filter : Pt1.filterStatePt1_t) (f_cut : Z)
  (dT : float) : float * Pt1.filterStatePt1_t :=
  (Pt1.state filter, filter).

(** Angle mode, sticks and attitude as given. *)
Definition env_angle (rc att : arr3 Z) : Env :=
  Env_set_attitude_raw att
    (Env_set_rcCommand rc
       (set_FLIGHT_MODE (fun f => match f with ANGLE_MODE => true | HORIZON_MODE => false end)
          env0)).

(** No weight on the roll axis. *)
Definition env_no_weight : Env := {|
  rcCommand := Arr3 300 0 0;
  gyroADC := Arr3 400 0 0;
  gyro_scale := F32.one;
  attitude_raw := fill 0;
  cycleTime := 1000;
  dT := dT_1ms;
  PIDweight := Arr3 0 100 100;
  FLIGHT_MODE := fun _ => false;
  getRcStickDeflection := fun _ _ => 0
|}.

(** The example profile with the I gains of the integer controller at
    zero. *)
Definition profile_no_I : pidProfile_t := {|
  P8 := P8 profile0;
  I8 := fun _ => 0;
  D8 := D8 profile0;
  P_f := P_f profile0;
  I_f := I_f profile0;
  D_f := D_f profile0;
  A_level := A_level profile0;
  H_level := H_level profile0;
  H_sensitivity := H_sensitivity profile0;
  dterm_cut_hz := dterm_cut_hz profile0;
  pterm_cut_hz := pterm_cut_hz profile0
|}.

(** A state of the example whose integer integrator sits at the upper
    limit on the yaw axis. *)
Definition saturated : State Pt1.filterStatePt1_t := {|
  axisPID := fill 0;
  axisPID_P := fill 0;
  axisPID_I := fill 0;
  axisPID_D := fill 0;
  errorGyroI := Arr3 0 0 (Z.shiftl GYRO_I_MAX 13);
  errorGyroIf := fill F32.zero;
  PTermState := fill Pt1.zero;
  DTermState := fill Pt1.zero;
  lux_lastError := fill F32.zero;
  lux_delta1 := fill F32.zero;
  lux_delta2 := fill F32.zero;
  mw_lastError := fill 0;
  mw_delta1 := fill 0;
  mw_delta2 := fill 0;
  pid_controller := fn_pidMultiWiiRewrite
|}.

(** Full yaw stick during a fast roll rotation: a rate error of 16000 on
    the roll axis and of 1100 on the yaw axis for the float controller. *)
Definition env_spin : Env := set_gyroADC (Arr3 (-16000) 0 0) Inputs.env_yaw.

Definition cycle_spin : op := OpCycle env_spin profile0 Inputs.rates100 500 rx0.

(** A cycle of the integer controller, then three of the float
    controller: the float integrator of the roll axis passes 250 in the
    second of them. *)
Definition spin : list op :=
  [cycle_spin; OpSetController PID_CONTROLLER_LUX_FLOAT; cycle_spin; cycle_spin;
   cycle_spin].

End More.

(** * Properties *)

(** ** Integers, clamps and arrays *)

Lemma wrap_range (w z : Z) :
  0 < w -> - 2 ^ (w - 1) <= CInt.wrap w z <= 2 ^ (w - 1) - 1.
Proof.
  intros Hw. unfold CInt.wrap.
  assert (H2 : 2 ^ w = 2 * 2 ^ (w - 1)).
  { replace w with (Z.succ (w - 1)) at 1 by lia. apply Z.pow_succ_r. lia. }
  assert (Hp : 0 < 2 ^ (w - 1)) by (apply Z.pow_pos_nonneg; lia).
  pose proof (Z.mod_pos_bound (z + 2 ^ (w - 1)) (2 ^ w) ltac:(lia)). lia.
Qed.

Lemma wrap_id (w z : Z) :
  0 < w -> - 2 ^ (w - 1) <= z <= 2 ^ (w - 1) - 1 -> CInt.wrap w z = z.
Proof.
  intros Hw Hz. unfold CInt.wrap.
  assert (H2 : 2 ^ w = 2 * 2 ^ (w - 1)).
  { replace w with (Z.succ (w - 1)) at 1 by lia. apply Z.pow_succ_r. lia. }
  rewrite Z.mod_small by lia. lia.
Qed.

Lemma i16_range (z : Z) : CInt.in_i16 (CInt.i16 z).
Proof. unfold CInt.in_i16, CInt.i16. apply (wrap_range 16 z). lia. Qed.

Lemma i16_id (z : Z) : CInt.in_i16 z -> CInt.i16 z = z.
Proof. unfold CInt.in_i16, CInt.i16. apply (wrap_id 16 z). lia. Qed.

Lemma i32_id (z : Z) : CInt.in_i32 z -> CInt.i32 z = z.
Proof.
  unfold CInt.in_i32, CInt.INT32_MIN, CInt.INT32_MAX, CInt.i32.
  apply (wrap_id 32 z). lia.
Qed.

Lemma constrain_range (amt low high : Z) :
  low <= high -> low <= constrain amt low high <= high.
Proof.
  intros H. unfold constrain.
  destruct (Z.ltb_spec amt low); [lia|].
  destruct (Z.gtb_spec amt high); lia.
Qed.

Lemma constrain_id (amt low high : Z) :
  low <= amt <= high -> constrain amt low high = amt.
Proof.
  intros H. unfold constrain.
  destruct (Z.ltb_spec amt low); [lia|].
  destruct (Z.gtb_spec amt high); lia.
Qed.

Lemma get_set_same {A : Type} (a : arr3 A) (i : axis_t) (v : A) : (set a i v).[i] = v.
Proof. destruct i; reflexivity. Qed.

Lemma get_set_other {A : Type} (a : arr3 A) (i j : axis_t) (v : A) :
  j <> i -> (set a i v).[j] = a.[j].
Proof. destruct i, j; intros H; try reflexivity; congruence. Qed.

Lemma shiftr4_nonzero (c : Z) : 16 <= c -> (c >>i 4) <> 0.
Proof.
  intros H. unfold CInt.shr. rewrite Z.shiftr_div_pow2 by lia.
  change (2 ^ 4) with 16. pose proof (Z.div_le_mono 16 c 16 ltac:(lia) H).
  rewrite Z.div_same in H0 by lia. lia.
Qed.

Lemma shiftr4_zero (c : Z) : 0 <= c < 16 -> (c >>i 4) = 0.
Proof.
  intros H. unfold CInt.shr. rewrite Z.shiftr_div_pow2 by lia.
  change (2 ^ 4) with 16. apply Z.div_small. lia.
Qed.

(** ** The monad *)

Lemma bind_Ok {A B : Type} (m : outcome A) (f : A -> outcome B) (b : B) (d : bool) :
  bind m f = Ok b d ->
  exists a d1 d2, m = Ok a d1 /\ f a = Ok b d2 /\ d = d1 || d2.
Proof.
  unfold bind. destruct m as [a d1|]; [|discriminate].
  destruct (f a) as [b' d2|] eqn:E; [|discriminate].
  intros H; injection H as <- <-. eauto 6.
Qed.

Lemma for_axes_Ok {S : Type} (body : axis_t -> S -> outcome S) (s s' : S) (d : bool) :
  for_axes body s = Ok s' d ->
  exists s0 s1 d0 d1 d2,
    body FD_ROLL s = Ok s0 d0 /\ body FD_PITCH s0 = Ok s1 d1 /\
    body FD_YAW s1 = Ok s' d2 /\ d = d0 || (d1 || d2).
Proof.
  unfold for_axes. intros H.
  apply bind_Ok in H as (s0 & d0 & d' & H0 & H & ->).
  apply bind_Ok in H as (s1 & d1 & d2 & H1 & H2 & ->).
  exists s0, s1, d0, d1, d2. auto.
Qed.

(** Each axis of a cycle is processed as if the body ran on the state
    at the start of the cycle. *)
Lemma for_axes_local {F : Type} (body : axis_t -> State F -> outcome (State F))
  (s s' : State F) (d : bool) :
  axis_local body -> for_axes body s = Ok s' d ->
  pid_controller s' = pid_controller s /\
  forall a, exists sa da, body a s = Ok sa da /\ slot sa a = slot s' a.
Proof.
  intros [Hframe Hown] H.
  apply for_axes_Ok in H as (s0 & s1 & d0 & d1 & d2 & H0 & H1 & H2 & _).
  destruct (Hframe _ _ _ _ H0) as [C0 F0].
  destruct (Hframe _ _ _ _ H1) as [C1 F1].
  destruct (Hframe _ _ _ _ H2) as [C2 F2].
  split; [congruence|].
  intros [ | | ].
  - exists s0, d0. split; [exact H0|].
    rewrite F2, F1 by discriminate. reflexivity.
  - destruct (Hown FD_PITCH s0 s s1 d1) as (sa & Ha & Hs); [apply F0; discriminate|exact H1|].
    exists sa, d1. split; [exact Ha|].
    rewrite F2 by discriminate. exact Hs.
  - assert (E : slot s1 FD_YAW = slot s FD_YAW).
    { rewrite F1, F0 by discriminate. reflexivity. }
    destruct (Hown FD_YAW s1 s s' d2 E H2) as (sa & Ha & Hs).
    exists sa, d2. auto.
Qed.

(** ** One axis of a cycle *)

Ltac state_simpl :=
  cbn [axisPID axisPID_P axisPID_I axisPID_D errorGyroI errorGyroIf PTermState
       DTermState lux_lastError lux_delta1 lux_delta2 mw_lastError mw_delta1
       mw_delta2 pid_controller get set el_roll el_pitch el_yaw fst snd] in *.

Ltac transport_slots K :=
  repeat match goal with
         | H : get _ ?a = get _ ?a |- _ => try rewrite H in K; clear H
         end.

Ltac split_all := repeat match goal with |- _ /\ _ => split end.

Ltac rewrite_slots :=
  repeat match goal with
         | H : el_roll _ = el_roll _ |- _ => try rewrite <- H; clear H
         | H : el_pitch _ = el_pitch _ |- _ => try rewrite <- H; clear H
         | H : el_yaw _ = el_yaw _ |- _ => try rewrite <- H; clear H
         end.

Section AxisMW.

Variable G : Z.
Variable F : Type.
Variable filter : float -> F -> Z -> float -> float * F.
Variable env : Env.
Variable p : pidProfile_t.
Variable r : controlRateConfig_t.
Variable m : Z.
Variable h : Z.

Lemma mw_delta_Ok (RateError lastError : Z) :
  (cycleTime env >>i 4) <> 0 ->
  mw_delta env RateError lastError = Ok (mw_delta_val env RateError lastError) false.
Proof.
  intros E. unfold mw_delta, idiv.
  destruct (Z.eqb_spec (cycleTime env >>i 4) 0) as [E' | _]; [contradiction|reflexivity].
Qed.

Lemma mw_delta_Undefined (RateError lastError : Z) :
  (cycleTime env >>i 4) = 0 -> mw_delta env RateError lastError = Undefined.
Proof. intros E. unfold mw_delta, idiv. rewrite E. reflexivity. Qed.

Lemma mw_axis_Undefined (a : axis_t) (st : State F) :
  (cycleTime env >>i 4) = 0 -> mw_axis G filter env p r m h a st = Undefined.
Proof. intros E. unfold mw_axis. rewrite mw_delta_Undefined by exact E. reflexivity. Qed.

Lemma mw_axis_Ok (a : axis_t) (st : State F) :
  (cycleTime env >>i 4) <> 0 ->
  exists st', mw_axis G filter env p r m h a st = Ok st' false.
Proof.
  intros E. unfold mw_axis. rewrite mw_delta_Ok by exact E.
  cbn [bind ret orb]. eexists. reflexivity.
Qed.

Lemma mw_axis_defined (a : axis_t) (st st' : State F) (dz : bool) :
  mw_axis G filter env p r m h a st = Ok st' dz ->
  (cycleTime env >>i 4) <> 0 /\ dz = false.
Proof.
  intros H. destruct (Z.eq_dec (cycleTime env >>i 4) 0) as [E | E].
  - rewrite mw_axis_Undefined in H by exact E. discriminate.
  - destruct (mw_axis_Ok a st E) as [st1 H1]. rewrite H1 in H.
    injection H as _ <-. auto.
Qed.

(** What the body writes at its own axis. *)
Lemma mw_axis_inv (a : axis_t) (st st' : State F) (dz : bool) :
  mw_axis G filter env p r m h a st = Ok st' dz ->
  let RateError := mw_RateError env p r m h a in
  let delta := mw_delta_val env RateError (mw_lastError st).[a] in
  (errorGyroI st').[a] = mw_errorGyroI G env p RateError a (errorGyroI st).[a] /\
  (axisPID_P st').[a] = fst (mw_PTerm filter env p RateError a (PTermState st).[a]) /\
  (axisPID_I st').[a] = mw_ITerm (errorGyroI st').[a] /\
  (axisPID_D st').[a] =
    mw_DTerm env p
      (fst (mw_deltaSum filter env p (mw_delta1 st).[a] (mw_delta2 st).[a] delta
              (DTermState st).[a])) a /\
  (axisPID st').[a] =
    CInt.i16 ((axisPID_P st').[a] +i (axisPID_I st').[a] +i (axisPID_D st').[a]) /\
  (mw_lastError st').[a] = RateError /\
  (mw_delta1 st').[a] = delta /\
  (mw_delta2 st').[a] = (mw_delta1 st).[a] /\
  (errorGyroIf st').[a] = (errorGyroIf st).[a] /\
  (lux_lastError st').[a] = (lux_lastError st).[a] /\
  (lux_delta1 st').[a] = (lux_delta1 st).[a] /\
  (lux_delta2 st').[a] = (lux_delta2 st).[a] /\
  (PTermState st').[a] = snd (mw_PTerm filter env p RateError a (PTermState st).[a]) /\
  (DTermState st').[a] =
    snd (mw_deltaSum filter env p (mw_delta1 st).[a] (mw_delta2 st).[a] delta
           (DTermState st).[a]).
Proof.
  intros H. destruct (mw_axis_defined _ _ _ _ H) as [E ->].
  unfold mw_axis in H. rewrite mw_delta_Ok in H by exact E.
  cbn [bind ret orb] in H. injection H as <-.
  destruct a; state_simpl; split_all; reflexivity.
Qed.

Lemma mw_axis_local : axis_local (mw_axis G filter env p r m h).
Proof.
  split.
  - intros a s s' d H. destruct (mw_axis_defined _ _ _ _ H) as [E ->].
    unfold mw_axis in H. rewrite mw_delta_Ok in H by exact E.
    cbn [bind ret orb] in H. injection H as <-.
    split; [reflexivity|].
    intros b Hb. unfold slot.
    destruct a, b; try congruence; state_simpl; reflexivity.
  - intros a s1 s2 s1' d Hs H. destruct (mw_axis_defined _ _ _ _ H) as [E ->].
    unfold mw_axis in *. rewrite mw_delta_Ok in * by exact E.
    cbn [bind ret orb] in *. injection H as <-.
    eexists. split; [reflexivity|].
    unfold slot in *.
    destruct a; state_simpl; injection Hs; intros; rewrite_slots; reflexivity.
Qed.

End AxisMW.

Section AxisLux.

Variable F : Type.
Variable filter : float -> F -> Z -> float -> float * F.
Variable env : Env.
Variable p : pidProfile_t.
Variable r : controlRateConfig_t.
Variable m : Z.
Variable h : float.

Lemma lux_delta_Ok (RateError lastError : float) :
  lux_delta env RateError lastError =
  Ok (lux_delta_val env RateError lastError) (F32.is_zero (dT env)).
Proof.
  unfold lux_delta, fdiv, lux_delta_val. cbn [bind ret].
  rewrite orb_false_r. reflexivity.
Qed.

Lemma lux_axis_Ok (a : axis_t) (st : State F) :
  exists st', lux_axis filter env p r m h a st = Ok st' (F32.is_zero (dT env)).
Proof.
  unfold lux_axis. rewrite lux_delta_Ok. cbn [bind ret].
  rewrite orb_false_r. eexists. reflexivity.
Qed.

Lemma lux_axis_flag (a : axis_t) (st st' : State F) (dz : bool) :
  lux_axis filter env p r m h a st = Ok st' dz -> dz = F32.is_zero (dT env).
Proof.
  intros H. destruct (lux_axis_Ok a st) as [st1 H1]. rewrite H1 in H.
  injection H as _ <-. reflexivity.
Qed.

(** What the body writes at its own axis. *)
Lemma lux_axis_inv (a : axis_t) (st st' : State F) (dz : bool) :
  lux_axis filter env p r m h a st = Ok st' dz ->
  let RateError := lux_RateError env p r m h a in
  let delta := lux_delta_val env RateError (lux_lastError st).[a] in
  let PTerm := fst (lux_PTerm filter env p RateError a (PTermState st).[a]) in
  let DTerm :=
    lux_DTerm env p
      (fst (lux_deltaSum filter env p (lux_delta1 st).[a] (lux_delta2 st).[a] delta
              (DTermState st).[a])) a in
  (errorGyroIf st').[a] = lux_errorGyroIf env p RateError a (errorGyroIf st).[a] /\
  (axisPID_P st').[a] = F32.to_i32 PTerm /\
  (axisPID_I st').[a] = F32.to_i32 (errorGyroIf st').[a] /\
  (axisPID_D st').[a] = F32.to_i32 DTerm /\
  (axisPID st').[a] =
    CInt.i16 (constrain (F32.lrintf (PTerm +f (errorGyroIf st').[a] +f DTerm)) (-1000) 1000) /\
  (lux_lastError st').[a] = RateError /\
  (lux_delta1 st').[a] = delta /\
  (lux_delta2 st').[a] = (lux_delta1 st).[a] /\
  (errorGyroI st').[a] = (errorGyroI st).[a] /\
  (mw_lastError st').[a] = (mw_lastError st).[a] /\
  (mw_delta1 st').[a] = (mw_delta1 st).[a] /\
  (mw_delta2 st').[a] = (mw_delta2 st).[a] /\
  (PTermState st').[a] = snd (lux_PTerm filter env p RateError a (PTermState st).[a]) /\
  (DTermState st').[a] =
    snd (lux_deltaSum filter env p (lux_delta1 st).[a] (lux_delta2 st).[a] delta
           (DTermState st).[a]).
Proof.
  intros H. unfold lux_axis in H. rewrite lux_delta_Ok in H.
  cbn [bind ret] in H. injection H as <- _.
  destruct a; state_simpl; split_all; reflexivity.
Qed.

Lemma lux_axis_local : axis_local (lux_axis filter env p r m h).
Proof.
  split.
  - intros a s s' d H.
    unfold lux_axis in H. rewrite lux_delta_Ok in H.
    cbn [bind ret] in H. injection H as <- _.
    split; [reflexivity|].
    intros b Hb. unfold slot.
    destruct a, b; try congruence; state_simpl; reflexivity.
  - intros a s1 s2 s1' d Hs H.
    unfold lux_axis in *. rewrite lux_delta_Ok in *.
    cbn [bind ret] in *. injection H as <- <-.
    eexists. split; [reflexivity|].
    unfold slot in *.
    destruct a; state_simpl; injection Hs; intros; rewrite_slots; reflexivity.
Qed.

End AxisLux.

(** ** A whole cycle *)

Section Cycles.

Variable G : Z.
Variable F : Type.
Variable filter : float -> F -> Z -> float -> float * F.
Variable env : Env.
Variable p : pidProfile_t.
Variable r : controlRateConfig_t.
Variable m : Z.
Variable rx : rxConfig_t.

Lemma mw_cycle_Undefined (st : State F) :
  (cycleTime env >>i 4) = 0 -> pidMultiWiiRewrite G filter env p r m rx st = Undefined.
Proof.
  intros E. unfold pidMultiWiiRewrite, for_axes.
  rewrite mw_axis_Undefined by exact E. reflexivity.
Qed.

Lemma mw_cycle_Ok (st : State F) :
  (cycleTime env >>i 4) <> 0 ->
  exists st', pidMultiWiiRewrite G filter env p r m rx st = Ok st' false.
Proof.
  intros E. unfold pidMultiWiiRewrite, for_axes.
  destruct (mw_axis_Ok G F filter env p r m (mw_horizonLevelStrength env p rx) FD_ROLL st E)
    as [s0 ->].
  destruct (mw_axis_Ok G F filter env p r m (mw_horizonLevelStrength env p rx) FD_PITCH s0 E)
    as [s1 H1].
  destruct (mw_axis_Ok G F filter env p r m (mw_horizonLevelStrength env p rx) FD_YAW s1 E)
    as [s2 H2].
  cbn [bind]. rewrite H1. cbn [bind]. rewrite H2. exists s2. reflexivity.
Qed.

Lemma mw_cycle_defined (st st' : State F) (dz : bool) :
  pidMultiWiiRewrite G filter env p r m rx st = Ok st' dz ->
  (cycleTime env >>i 4) <> 0 /\ dz = false.
Proof.
  intros H. destruct (Z.eq_dec (cycleTime env >>i 4) 0) as [E | E].
  - rewrite mw_cycle_Undefined in H by exact E. discriminate.
  - destruct (mw_cycle_Ok st E) as [st1 H1]. rewrite H1 in H.
    injection H as _ <-. auto.
Qed.

(** The state after a cycle of the integer controller, axis by axis,
    from the state before it. *)
Lemma mw_cycle_inv (st st' : State F) (dz : bool) (a : axis_t) :
  pidMultiWiiRewrite G filter env p r m rx st = Ok st' dz ->
  let RateError := mw_RateError env p r m (mw_horizonLevelStrength env p rx) a in
  let delta := mw_delta_val env RateError (mw_lastError st).[a] in
  (errorGyroI st').[a] = mw_errorGyroI G env p RateError a (errorGyroI st).[a] /\
  (axisPID_P st').[a] = fst (mw_PTerm filter env p RateError a (PTermState st).[a]) /\
  (axisPID_I st').[a] = mw_ITerm (errorGyroI st').[a] /\
  (axisPID_D st').[a] =
    mw_DTerm env p
      (fst (mw_deltaSum filter env p (mw_delta1 st).[a] (mw_delta2 st).[a] delta
              (DTermState st).[a])) a /\
  (axisPID st').[a] =
    CInt.i16 ((axisPID_P st').[a] +i (axisPID_I st').[a] +i (axisPID_D st').[a]) /\
  (mw_lastError st').[a] = RateError /\
  (mw_delta1 st').[a] = delta /\
  (mw_delta2 st').[a] = (mw_delta1 st).[a] /\
  (errorGyroIf st').[a] = (errorGyroIf st).[a] /\
  (lux_lastError st').[a] = (lux_lastError st).[a] /\
  (lux_delta1 st').[a] = (lux_delta1 st).[a] /\
  (lux_delta2 st').[a] = (lux_delta2 st).[a] /\
  (PTermState st').[a] = snd (mw_PTerm filter env p RateError a (PTermState st).[a]) /\
  (DTermState st').[a] =
    snd (mw_deltaSum filter env p (mw_delta1 st).[a] (mw_delta2 st).[a] delta
           (DTermState st).[a]).
Proof.
  intros H. unfold pidMultiWiiRewrite in H.
  apply (for_axes_local _ _ _ _ (mw_axis_local G F filter env p r m _)) in H
    as [_ H].
  destruct (H a) as (sa & da & Ha & Hs).
  pose proof (mw_axis_inv _ _ _ _ _ _ _ _ _ _ _ _ Ha) as K.
  unfold slot in Hs. injection Hs; intros. transport_slots K. exact K.
Qed.

Lemma mw_cycle_controller (st st' : State F) (dz : bool) :
  pidMultiWiiRewrite G filter env p r m rx st = Ok st' dz ->
  pid_controller st' = pid_controller st.
Proof.
  intros H. unfold pidMultiWiiRewrite in H.
  apply (for_axes_local _ _ _ _ (mw_axis_local G F filter env p r m _)) in H
    as [H _].
  exact H.
Qed.

Lemma lux_horizon_Ok :
  exists h, lux_horizonLevelStrength env p rx = Ok h false.
Proof.
  unfold lux_horizonLevelStrength, idiv.
  destruct (FLIGHT_MODE env HORIZON_MODE); [|eexists; reflexivity].
  destruct (H_sensitivity p =? 0); eexists; reflexivity.
Qed.

Lemma lux_cycle_Ok (st : State F) :
  exists st', pidLuxFloat filter env p r m rx st = Ok st' (F32.is_zero (dT env)).
Proof.
  unfold pidLuxFloat, for_axes.
  destruct lux_horizon_Ok as [h ->]. cbn [bind].
  destruct (lux_axis_Ok F filter env p r m h FD_ROLL st) as [s0 ->]. cbn [bind].
  destruct (lux_axis_Ok F filter env p r m h FD_PITCH s0) as [s1 ->]. cbn [bind].
  destruct (lux_axis_Ok F filter env p r m h FD_YAW s1) as [s2 ->].
  exists s2. f_equal. destruct (F32.is_zero (dT env)); reflexivity.
Qed.

Lemma lux_cycle_flag (st st' : State F) (dz : bool) :
  pidLuxFloat filter env p r m rx st = Ok st' dz -> dz = F32.is_zero (dT env).
Proof.
  intros H. destruct (lux_cycle_Ok st) as [st1 H1]. rewrite H1 in H.
  injection H as _ <-. reflexivity.
Qed.

(** The state after a cycle of the float controller, axis by axis,
    from the state before it. *)
Lemma lux_cycle_inv (st st' : State F) (dz : bool) (a : axis_t) :
  pidLuxFloat filter env p r m rx st = Ok st' dz ->
  exists h, lux_horizonLevelStrength env p rx = Ok h false /\
  let RateError := lux_RateError env p r m h a in
  let delta := lux_delta_val env RateError (lux_lastError st).[a] in
  let PTerm := fst (lux_PTerm filter env p RateError a (PTermState st).[a]) in
  let DTerm :=
    lux_DTerm env p
      (fst (lux_deltaSum filter env p (lux_delta1 st).[a] (lux_delta2 st).[a] delta
              (DTermState st).[a])) a in
  (errorGyroIf st').[a] = lux_errorGyroIf env p RateError a (errorGyroIf st).[a] /\
  (axisPID_P st').[a] = F32.to_i32 PTerm /\
  (axisPID_I st').[a] = F32.to_i32 (errorGyroIf st').[a] /\
  (axisPID_D st').[a] = F32.to_i32 DTerm /\
  (axisPID st').[a] =
    CInt.i16 (constrain (F32.lrintf (PTerm +f (errorGyroIf st').[a] +f DTerm)) (-1000) 1000) /\
  (lux_lastError st').[a] = RateError /\
  (lux_delta1 st').[a] = delta /\
  (lux_delta2 st').[a] = (lux_delta1 st).[a] /\
  (errorGyroI st').[a] = (errorGyroI st).[a] /\
  (mw_lastError st').[a] = (mw_lastError st).[a] /\
  (mw_delta1 st').[a] = (mw_delta1 st).[a] /\
  (mw_delta2 st').[a] = (mw_delta2 st).[a] /\
  (PTermState st').[a] = snd (lux_PTerm filter env p RateError a (PTermState st).[a]) /\
  (DTermState st').[a] =
    snd (lux_deltaSum filter env p (lux_delta1 st).[a] (lux_delta2 st).[a] delta
           (DTermState st).[a]).
Proof.
  intros H. unfold pidLuxFloat in H.
  destruct lux_horizon_Ok as [h Hh]. rewrite Hh in H. cbn [bind] in H.
  exists h. split; [exact Hh|].
  destruct (for_axes (lux_axis filter env p r m h) st) as [s2 d2|] eqn:E; [|discriminate].
  injection H as <- _.
  apply (for_axes_local _ _ _ _ (lux_axis_local F filter env p r m h)) in E as [_ E].
  destruct (E a) as (sa & da & Ha & Hs).
  pose proof (lux_axis_inv _ _ _ _ _ _ _ _ _ _ _ Ha) as K.
  unfold slot in Hs. injection Hs; intros. transport_slots K. exact K.
Qed.

Lemma lux_cycle_controller (st st' : State F) (dz : bool) :
  pidLuxFloat filter env p r m rx st = Ok st' dz ->
  pid_controller st' = pid_controller st.
Proof.
  intros H. unfold pidLuxFloat in H.
  apply bind_Ok in H as (h & d1 & d2 & _ & H & _).
  apply (for_axes_local _ _ _ _ (lux_axis_local F filter env p r m h)) in H as [H _].
  exact H.
Qed.

End Cycles.

(** ** Floats and their clamp *)

Lemma SFcompare_antisym (x y : float) (c : comparison) :
  SFcompare x y = Some c -> SFcompare y x = Some (CompOpp c).
Proof.
  destruct x as [sx | sx | | sx mx ex], y as [sy | sy | | sy my ey]; cbn;
    try discriminate; intros H; injection H as <-;
    try (destruct sx; reflexivity); try (destruct sy; reflexivity);
    try (destruct sx, sy; reflexivity).
  destruct sx, sy; try reflexivity.
  - rewrite (Z.compare_antisym ex ey). destruct (ex ?= ey); cbn; try reflexivity.
    do 2 f_equal. symmetry. exact (Pos.compare_cont_antisym mx my Eq).
  - rewrite (Z.compare_antisym ex ey). destruct (ex ?= ey); cbn; try reflexivity.
    f_equal. symmetry. exact (Pos.compare_cont_antisym mx my Eq).
Qed.

Lemma SFcompare_not_nan (x y : float) :
  F32.is_nan x = false -> F32.is_nan y = false -> exists c, SFcompare x y = Some c.
Proof.
  destruct x, y; cbn; intros Hx Hy; try discriminate; eexists; reflexivity.
Qed.

Lemma ltb_false_leb (x y : float) :
  F32.is_nan x = false -> F32.is_nan y = false ->
  (x <f y) = false -> F32.leb y x = true.
Proof.
  intros Hx Hy. unfold F32.ltb, F32.leb, SFltb, SFleb.
  destruct (SFcompare_not_nan x y Hx Hy) as [c Hc].
  rewrite Hc, (SFcompare_antisym _ _ _ Hc).
  destruct c; cbn; intros H; try reflexivity; discriminate H.
Qed.

Lemma ltb_asym (x y : float) : (x <f y) = true -> (y <f x) = false.
Proof.
  unfold F32.ltb, SFltb. destruct (SFcompare x y) as [c|] eqn:Hc; [|discriminate].
  rewrite (SFcompare_antisym _ _ _ Hc). destruct c; cbn; intros H; try discriminate H.
  reflexivity.
Qed.

Lemma ltb_irrefl (x : float) : (x <f x) = false.
Proof.
  destruct (x <f x) eqn:E; [|reflexivity].
  pose proof (ltb_asym _ _ E) as E'. congruence.
Qed.

(** The clamp never leaves a value above [high] or below [low]. *)
Lemma constrainf_range (amt low high : float) :
  (low <f high) = true ->
  (constrainf amt low high <f low) = false /\
  (high <f constrainf amt low high) = false.
Proof.
  intros Hlh. unfold constrainf.
  destruct (amt <f low) eqn:E1.
  - split; [apply ltb_irrefl | apply ltb_asym; exact Hlh].
  - destruct (high <f amt) eqn:E2.
    + split; [apply ltb_asym; exact Hlh | apply ltb_irrefl].
    + split; assumption.
Qed.

Lemma abs_not_above (mh : positive) (eh : Z) (y : float) :
  let high := S754_finite false mh eh in
  (y <f SFopp high) = false -> (high <f y) = false -> (high <f SFabs y) = false.
Proof.
  cbv zeta. destruct y as [s | s | | s my ey]; cbn; try reflexivity.
  - destruct s; cbn; intros H1 H2; try discriminate; reflexivity.
  - destruct s; intros H1 H2; [|exact H2].
    unfold F32.ltb, SFltb in *. cbn in *.
    rewrite (Z.compare_antisym ey eh).
    destruct (ey ?= eh); cbn in *; try reflexivity; try discriminate.
    match type of H1 with
    | context [CompOpp ?c] =>
        match goal with
        | |- context [match ?d with Eq => _ | Lt => _ | Gt => _ end] =>
            assert (A : d = CompOpp c)
              by (symmetry; exact (Pos.compare_cont_antisym my mh Eq));
            rewrite A; exact H1
        end
    end.
Qed.

Lemma constrainf_within (mh : positive) (eh : Z) (amt : float) :
  let high := S754_finite false mh eh in
  within_f high (constrainf amt (SFopp high) high).
Proof.
  cbv zeta.
  assert (Hlh : (SFopp (S754_finite false mh eh) <f S754_finite false mh eh) = true)
    by reflexivity.
  destruct (constrainf_range amt _ _ Hlh) as [H1 H2].
  pose proof (abs_not_above mh eh _ H1 H2) as H3. cbv zeta in H3.
  split; [exact H3|].
  intros Hn. apply ltb_false_leb; [reflexivity| |exact H3].
  destruct (constrainf amt (SFopp (S754_finite false mh eh)) (S754_finite false mh eh));
    try reflexivity; discriminate Hn.
Qed.

(** The clamp leaves a value within the limits as it is. *)
Lemma constrainf_id (mh : positive) (eh : Z) (x : float) :
  let high := S754_finite false mh eh in
  (high <f SFabs x) = false -> constrainf x (SFopp high) high = x.
Proof.
  cbv zeta. unfold constrainf.
  destruct x as [s | s | | s mx ex]; try reflexivity.
  - destruct s; intros H; discriminate H.
  - destruct s; intros H.
    + replace (S754_finite true mx ex <f SFopp (S754_finite false mh eh)) with false;
        [reflexivity|].
      unfold F32.ltb, SFltb in *. cbn in *.
      rewrite (Z.compare_antisym eh ex).
      destruct (eh ?= ex); cbn in *; try reflexivity; try discriminate.
      match type of H with
      | context [match ?d with Eq => _ | Lt => _ | Gt => _ end] =>
          match goal with
          | |- context [CompOpp ?c] =>
              assert (A : CompOpp c = d)
                by exact (Pos.compare_cont_antisym mx mh Eq);
              rewrite A; symmetry; exact H
          end
      end.
    + cbn [SFabs] in H. cbn [SFopp negb].
      change (S754_finite false mx ex <f S754_finite true mh eh) with false.
      cbv iota. rewrite H. reflexivity.
Qed.

Lemma same_float_eq (x y : float) : same_float x y = true -> x = y.
Proof.
  destruct x, y; cbn; intros H; try discriminate H; try reflexivity.
  - apply Bool.eqb_prop in H. congruence.
  - apply Bool.eqb_prop in H. congruence.
  - apply andb_prop in H as [H He]. apply andb_prop in H as [Hs Hm].
    apply Bool.eqb_prop in Hs. apply Pos.eqb_eq in Hm. apply Z.eqb_eq in He.
    congruence.
Qed.

Lemma forall_range (P : Z -> bool) (lo : Z) (n : nat) :
  forallb P (Zrange lo n) = true ->
  forall z, lo <= z < lo + Z.of_nat n -> P z = true.
Proof.
  intros H z Hz. rewrite forallb_forall in H. apply H.
  unfold Zrange. apply in_map_iff. exists (Z.to_nat (z - lo)).
  split; [lia|]. apply in_seq. lia.
Qed.

(** ** Reset and selection leave the rest of the state alone *)

(** C7: [pidResetErrorGyro] writes the two integrator arrays only: the
    derivative history of both controllers ([lastError], [delta1],
    [delta2]), the states of the P-term and D-term filters, the outputs
    and the selected controller are the same after the reset. *)
Theorem pidResetErrorGyro_frame (F : Type) (st : State F) :
  mw_lastError (pidResetErrorGyro st) = mw_lastError st /\
  mw_delta1 (pidResetErrorGyro st) = mw_delta1 st /\
  mw_delta2 (pidResetErrorGyro st) = mw_delta2 st /\
  lux_lastError (pidResetErrorGyro st) = lux_lastError st /\
  lux_delta1 (pidResetErrorGyro st) = lux_delta1 st /\
  lux_delta2 (pidResetErrorGyro st) = lux_delta2 st /\
  PTermState (pidResetErrorGyro st) = PTermState st /\
  DTermState (pidResetErrorGyro st) = DTermState st /\
  axisPID (pidResetErrorGyro st) = axisPID st /\
  axisPID_P (pidResetErrorGyro st) = axisPID_P st /\
  axisPID_I (pidResetErrorGyro st) = axisPID_I st /\
  axisPID_D (pidResetErrorGyro st) = axisPID_D st /\
  pid_controller (pidResetErrorGyro st) = pid_controller st.
Proof. unfold pidResetErrorGyro. state_simpl. split_all; reflexivity. Qed.

(** C9: [pidSetController] changes the selected controller only: both
    integrators, the derivative history and the filter states carry over
    a switch, and the next cycle runs the selected variant on them. *)
Theorem pidSetController_frame (G : Z) (F : Type)
  (filter : float -> F -> Z -> float -> float * F)
  (type : pidControllerType_e) (st : State F) :
  errorGyroI (pidSetController type st) = errorGyroI st /\
  errorGyroIf (pidSetController type st) = errorGyroIf st /\
  mw_lastError (pidSetController type st) = mw_lastError st /\
  mw_delta1 (pidSetController type st) = mw_delta1 st /\
  mw_delta2 (pidSetController type st) = mw_delta2 st /\
  lux_lastError (pidSetController type st) = lux_lastError st /\
  lux_delta1 (pidSetController type st) = lux_delta1 st /\
  lux_delta2 (pidSetController type st) = lux_delta2 st /\
  PTermState (pidSetController type st) = PTermState st /\
  DTermState (pidSetController type st) = DTermState st /\
  axisPID (pidSetController type st) = axisPID st /\
  axisPID_P (pidSetController type st) = axisPID_P st /\
  axisPID_I (pidSetController type st) = axisPID_I st /\
  axisPID_D (pidSetController type st) = axisPID_D st /\
  pid_controller (pidSetController type st) =
    match type with
    | PID_CONTROLLER_LUX_FLOAT => fn_pidLuxFloat
    | _ => fn_pidMultiWiiRewrite
    end /\
  forall env p r m rx,
    pid_controller_call G filter env p r m rx (pidSetController type st) =
    match type with
    | PID_CONTROLLER_LUX_FLOAT => pidLuxFloat filter env p r m rx (pidSetController type st)
    | _ => pidMultiWiiRewrite G filter env p r m rx (pidSetController type st)
    end.
Proof.
  unfold pid_controller_call, pidSetController. state_simpl.
  split_all; try reflexivity; destruct type; reflexivity.
Qed.

(** ** The desired yaw rate *)

Section YawAxis.

Variable G : Z.
Variable F : Type.
Variable filter : float -> F -> Z -> float -> float * F.
Variable env : Env.
Variable p : pidProfile_t.
Variable r : controlRateConfig_t.
Variable m : Z.
Variable rx : rxConfig_t.
Variable flag : bool.
Variable att : arr3 Z.

Let env' : Env := Env_set_attitude_raw att (Env_set_angle_mode flag env).

Lemma mw_RateError_yaw (h h' : Z) :
  mw_RateError env' p r m h' FD_YAW = mw_RateError env p r m h FD_YAW.
Proof. reflexivity. Qed.

Lemma mw_PTerm_env (RateError : Z) (a : axis_t) (f : F) :
  mw_PTerm filter env' p RateError a f = mw_PTerm filter env p RateError a f.
Proof. reflexivity. Qed.

Lemma mw_errorGyroI_env (RateError : Z) (a : axis_t) (acc : Z) :
  mw_errorGyroI G env' p RateError a acc = mw_errorGyroI G env p RateError a acc.
Proof. reflexivity. Qed.

Lemma mw_delta_val_env (RateError lastError : Z) :
  mw_delta_val env' RateError lastError = mw_delta_val env RateError lastError.
Proof. reflexivity. Qed.

Lemma mw_deltaSum_env (d1 d2 d : Z) (f : F) :
  mw_deltaSum filter env' p d1 d2 d f = mw_deltaSum filter env p d1 d2 d f.
Proof. reflexivity. Qed.

Lemma mw_DTerm_env (deltaSum : Z) (a : axis_t) :
  mw_DTerm env' p deltaSum a = mw_DTerm env p deltaSum a.
Proof. reflexivity. Qed.

Lemma lux_RateError_yaw (h h' : float) :
  lux_RateError env' p r m h' FD_YAW = lux_RateError env p r m h FD_YAW.
Proof. reflexivity. Qed.

Lemma lux_PTerm_env (RateError : float) (a : axis_t) (f : F) :
  lux_PTerm filter env' p RateError a f = lux_PTerm filter env p RateError a f.
Proof. reflexivity. Qed.

Lemma lux_errorGyroIf_env (RateError : float) (a : axis_t) (acc : float) :
  lux_errorGyroIf env' p RateError a acc = lux_errorGyroIf env p RateError a acc.
Proof. reflexivity. Qed.

Lemma lux_delta_val_env (RateError lastError : float) :
  lux_delta_val env' RateError lastError = lux_delta_val env RateError lastError.
Proof. reflexivity. Qed.

Lemma lux_deltaSum_env (d1 d2 d : float) (f : F) :
  lux_deltaSum filter env' p d1 d2 d f = lux_deltaSum filter env p d1 d2 d f.
Proof. reflexivity. Qed.

Lemma lux_DTerm_env (deltaSum : float) (a : axis_t) :
  lux_DTerm env' p deltaSum a = lux_DTerm env p deltaSum a.
Proof. reflexivity. Qed.

(** C8: on the yaw axis the desired rate of both controllers is a
    function of the yaw stick command and of the yaw rate setting only:
    changing the angle-hold flag and the attitude estimate (and with
    them the horizon strength) leaves it the same.  Two cycles from the
    same state that differ only in that flag and in the attitude
    estimate leave the same values in every yaw entry of the state. *)
Theorem yaw_rate_ignores_angle_mode :
  (forall h h' : Z,
     mw_AngleRateTmp (Env_set_attitude_raw att (Env_set_angle_mode flag env)) p r m h' FD_YAW
     = mw_AngleRateTmp env p r m h FD_YAW) /\
  (forall hf hf' : float,
     lux_AngleRate (Env_set_attitude_raw att (Env_set_angle_mode flag env)) p r m hf' FD_YAW
     = lux_AngleRate env p r m hf FD_YAW) /\
  (forall h : Z,
     mw_AngleRateTmp env p r m h FD_YAW
     = (((rates r).[YAW] +i 27) *i (rcCommand env).[YAW]) >>i 5) /\
  (forall hf : float,
     lux_AngleRate env p r m hf FD_YAW
     = F32.of_Z (((rates r).[YAW] +i 10) *i (rcCommand env).[YAW]) /f F32.f50) /\
  (forall (st st1 st2 : State F) (d1 d2 : bool),
     pidMultiWiiRewrite G filter env p r m rx st = Ok st1 d1 ->
     pidMultiWiiRewrite G filter (Env_set_attitude_raw att (Env_set_angle_mode flag env))
       p r m rx st = Ok st2 d2 ->
     slot st1 FD_YAW = slot st2 FD_YAW) /\
  (forall (st st1 st2 : State F) (d1 d2 : bool),
     pidLuxFloat filter env p r m rx st = Ok st1 d1 ->
     pidLuxFloat filter (Env_set_attitude_raw att (Env_set_angle_mode flag env))
       p r m rx st = Ok st2 d2 ->
     slot st1 FD_YAW = slot st2 FD_YAW).
Proof.
  fold env'. split_all; try reflexivity.
  - intros st st1 st2 d1 d2 H1 H2.
    pose proof (mw_cycle_inv G F filter _ p r m rx st st1 d1 FD_YAW H1) as K1.
    pose proof (mw_cycle_inv G F filter _ p r m rx st st2 d2 FD_YAW H2) as K2.
    cbv zeta in K1, K2.
    rewrite (mw_RateError_yaw (mw_horizonLevelStrength env p rx)), mw_PTerm_env,
      mw_errorGyroI_env, mw_delta_val_env, mw_deltaSum_env, mw_DTerm_env in K2.
    destruct K1 as (A1 & A2 & A3 & A4 & A5 & A6 & A7 & A8 & A9 & A10 & A11 & A12 & A13 & A14).
    destruct K2 as (B1 & B2 & B3 & B4 & B5 & B6 & B7 & B8 & B9 & B10 & B11 & B12 & B13 & B14).
    unfold slot.
    rewrite A5, A3, A1, A2, A4, A6, A7, A8, A9, A10, A11, A12, A13, A14.
    rewrite B5, B3, B1, B2, B4, B6, B7, B8, B9, B10, B11, B12, B13, B14.
    reflexivity.
  - intros st st1 st2 d1 d2 H1 H2.
    destruct (lux_cycle_inv F filter _ p r m rx st st1 d1 FD_YAW H1) as (h1 & _ & K1).
    destruct (lux_cycle_inv F filter _ p r m rx st st2 d2 FD_YAW H2) as (h2 & _ & K2).
    cbv zeta in K1, K2.
    rewrite (lux_RateError_yaw h1), lux_PTerm_env, lux_errorGyroIf_env, lux_delta_val_env,
      lux_deltaSum_env, lux_DTerm_env in K2.
    destruct K1 as (A1 & A2 & A3 & A4 & A5 & A6 & A7 & A8 & A9 & A10 & A11 & A12 & A13 & A14).
    destruct K2 as (B1 & B2 & B3 & B4 & B5 & B6 & B7 & B8 & B9 & B10 & B11 & B12 & B13 & B14).
    unfold slot.
    rewrite A5, A3, A1, A2, A4, A6, A7, A8, A9, A10, A11, A12, A13, A14.
    rewrite B5, B3, B1, B2, B4, B6, B7, B8, B9, B10, B11, B12, B13, B14.
    reflexivity.
Qed.

End YawAxis.

Lemma yaw_rate_ignores_angle_mode_witness :
  exists st1 st2,
    pidMultiWiiRewrite Sample.GYRO_I_MAX Pt1.filterApplyPt1 Inputs.env_yaw Sample.profile0
      Inputs.rates100 500 Sample.rx0 Sample.init = Ok st1 false /\
    pidMultiWiiRewrite Sample.GYRO_I_MAX Pt1.filterApplyPt1
      (Env_set_attitude_raw (Arr3 100 200 300) (Env_set_angle_mode true Inputs.env_yaw))
      Sample.profile0 Inputs.rates100 500 Sample.rx0 Sample.init = Ok st2 false /\
    slot st1 FD_YAW = slot st2 FD_YAW.
Proof.
  eexists. eexists. split; [vm_compute; reflexivity|].
  split; [vm_compute; reflexivity|].
  refine (proj1 (proj2 (proj2 (proj2 (proj2
    (yaw_rate_ignores_angle_mode Sample.GYRO_I_MAX _ Pt1.filterApplyPt1 Inputs.env_yaw
       Sample.profile0 Inputs.rates100 500 Sample.rx0 true (Arr3 100 200 300))))))
    Sample.init _ _ false false _ _).
  - vm_compute. reflexivity.
  - vm_compute. reflexivity.
Defined.

(** ** Range of the output *)

Lemma lux_output_range (F : Type) (filter : float -> F -> Z -> float -> float * F)
  (env : Env) (p : pidProfile_t) (r : controlRateConfig_t) (m : Z) (rx : rxConfig_t)
  (st st' : State F) (dz : bool) (a : axis_t) :
  pidLuxFloat filter env p r m rx st = Ok st' dz ->
  -1000 <= (axisPID st').[a] <= 1000.
Proof.
  intros H. destruct (lux_cycle_inv F filter env p r m rx st st' dz a H) as (h & _ & K).
  cbv zeta in K. destruct K as (_ & _ & _ & _ & K & _). rewrite K.
  match goal with |- _ <= CInt.i16 (constrain ?x _ _) <= _ =>
    pose proof (constrain_range x (-1000) 1000 ltac:(lia)) as B end.
  rewrite i16_id by (unfold CInt.in_i16; lia). exact B.
Qed.

(** C1, as amended: after a cycle of the float controller every
    [axisPID[axis]] lies within [-1000, 1000].  The integer controller
    has no clamp: after a cycle with [cycleTime >= 16] every
    [axisPID[axis]] is the sum of the three terms narrowed to [int16_t],
    hence within [-32768, 32767]. *)
Theorem output_range (G : Z) (F : Type) (filter : float -> F -> Z -> float -> float * F)
  (env : Env) (p : pidProfile_t) (r : controlRateConfig_t) (m : Z) (rx : rxConfig_t)
  (st : State F) :
  (exists st' dz,
     pidLuxFloat filter env p r m rx st = Ok st' dz /\
     forall a, -1000 <= (axisPID st').[a] <= 1000) /\
  (16 <= cycleTime env ->
   exists st',
     pidMultiWiiRewrite G filter env p r m rx st = Ok st' false /\
     forall a,
       (axisPID st').[a] =
         CInt.i16 ((axisPID_P st').[a] +i (axisPID_I st').[a] +i (axisPID_D st').[a]) /\
       - 32768 <= (axisPID st').[a] <= 32767).
Proof.
  split.
  - destruct (lux_cycle_Ok F filter env p r m rx st) as [st' H].
    exists st', (F32.is_zero (dT env)). split; [exact H|].
    intros a. exact (lux_output_range _ _ _ _ _ _ _ _ _ _ a H).
  - intros Hc.
    destruct (mw_cycle_Ok G F filter env p r m rx st (shiftr4_nonzero _ Hc)) as [st' H].
    exists st'. split; [exact H|].
    intros a. pose proof (mw_cycle_inv G F filter env p r m rx st st' false a H) as K.
    cbv zeta in K. destruct K as (_ & _ & _ & _ & K & _).
    split; [exact K|]. rewrite K. apply i16_range.
Qed.

Lemma output_range_witness :
  (exists st' dz,
     pidLuxFloat Pt1.filterApplyPt1 Inputs.env_yaw Sample.profile0 Inputs.rates100 500
       Sample.rx0 Sample.init = Ok st' dz /\
     forall a, -1000 <= (axisPID st').[a] <= 1000) /\
  exists st',
    pidMultiWiiRewrite Sample.GYRO_I_MAX Pt1.filterApplyPt1 Inputs.env_yaw Sample.profile0
      Inputs.rates100 500 Sample.rx0 Sample.init = Ok st' false /\
    forall a,
      (axisPID st').[a] =
        CInt.i16 ((axisPID_P st').[a] +i (axisPID_I st').[a] +i (axisPID_D st').[a]) /\
      - 32768 <= (axisPID st').[a] <= 32767.
Proof.
  pose proof (output_range Sample.GYRO_I_MAX _ Pt1.filterApplyPt1 Inputs.env_yaw
                Sample.profile0 Inputs.rates100 500 Sample.rx0 Sample.init) as [L M].
  split; [exact L|]. apply M. vm_compute. intros H; discriminate H.
Defined.

(** C1, the claim as stated fails for the integer controller: with full
    yaw stick, from the initial state, one cycle leaves
    [axisPID[YAW] = 3566]. *)
Lemma mw_output_exceeds_1000 :
  exists st',
    pidMultiWiiRewrite Sample.GYRO_I_MAX Pt1.filterApplyPt1 Inputs.env_yaw Sample.profile0
      Inputs.rates100 500 Sample.rx0 Sample.init = Ok st' false /\
    (axisPID st').[YAW] = 3566 /\
    ~ (-1000 <= (axisPID st').[YAW] <= 1000).
Proof.
  eexists. split; [vm_compute; reflexivity|].
  split; [reflexivity|]. cbn. lia.
Qed.

(** ** Division by the cycle time *)

Lemma ltb_zero_not_zero (x : float) : (F32.zero <f x) = true -> F32.is_zero x = false.
Proof. destruct x; intros H; try reflexivity. discriminate H. Qed.

(** C10: neither controller guards its division by the cycle time.  The
    integer controller divides by [cycleTime >> 4]: with
    [cycleTime >= 16] a cycle completes without a division by zero, with
    [cycleTime < 16] it reaches an integer division by zero.  The float
    controller divides by [dT]: with [dT > 0] a cycle completes without
    a division by zero, with [dT == 0] it divides by zero. *)
Theorem division_by_cycle_time (G : Z) (F : Type)
  (filter : float -> F -> Z -> float -> float * F)
  (env : Env) (p : pidProfile_t) (r : controlRateConfig_t) (m : Z) (rx : rxConfig_t)
  (st : State F) :
  (16 <= cycleTime env ->
   exists st', pidMultiWiiRewrite G filter env p r m rx st = Ok st' false) /\
  (0 <= cycleTime env < 16 ->
   pidMultiWiiRewrite G filter env p r m rx st = Undefined) /\
  ((F32.zero <f dT env) = true ->
   exists st', pidLuxFloat filter env p r m rx st = Ok st' false) /\
  (F32.is_zero (dT env) = true ->
   exists st', pidLuxFloat filter env p r m rx st = Ok st' true).
Proof.
  split_all.
  - intros H. apply mw_cycle_Ok. apply shiftr4_nonzero. exact H.
  - intros H. apply mw_cycle_Undefined. apply shiftr4_zero. exact H.
  - intros H. destruct (lux_cycle_Ok F filter env p r m rx st) as [st' K].
    rewrite (ltb_zero_not_zero _ H) in K. exists st'. exact K.
  - intros H. destruct (lux_cycle_Ok F filter env p r m rx st) as [st' K].
    rewrite H in K. exists st'. exact K.
Qed.

Lemma division_by_cycle_time_witness :
  (exists st',
     pidMultiWiiRewrite Sample.GYRO_I_MAX Pt1.filterApplyPt1 Sample.env0 Sample.profile0
       Sample.rates0 500 Sample.rx0 Sample.init = Ok st' false) /\
  pidMultiWiiRewrite Sample.GYRO_I_MAX Pt1.filterApplyPt1 Inputs.env_short Sample.profile0
    Sample.rates0 500 Sample.rx0 Sample.init = Undefined /\
  (exists st',
     pidLuxFloat Pt1.filterApplyPt1 Sample.env0 Sample.profile0 Sample.rates0 500
       Sample.rx0 Sample.init = Ok st' false) /\
  (exists st',
     pidLuxFloat Pt1.filterApplyPt1 Inputs.env_zero Sample.profile0 Sample.rates0 500
       Sample.rx0 Sample.init = Ok st' true).
Proof.
  split_all.
  - apply (proj1 (division_by_cycle_time Sample.GYRO_I_MAX _ Pt1.filterApplyPt1 Sample.env0
                    Sample.profile0 Sample.rates0 500 Sample.rx0 Sample.init)).
    vm_compute. intros H; discriminate H.
  - apply (proj1 (proj2 (division_by_cycle_time Sample.GYRO_I_MAX _ Pt1.filterApplyPt1
                    Inputs.env_short Sample.profile0 Sample.rates0 500 Sample.rx0
                    Sample.init))).
    vm_compute. split; [intros H; discriminate H | reflexivity].
  - apply (proj1 (proj2 (proj2 (division_by_cycle_time Sample.GYRO_I_MAX _
                    Pt1.filterApplyPt1 Sample.env0 Sample.profile0 Sample.rates0 500
                    Sample.rx0 Sample.init)))).
    vm_compute. reflexivity.
  - apply (proj2 (proj2 (proj2 (division_by_cycle_time Sample.GYRO_I_MAX _
                    Pt1.filterApplyPt1 Inputs.env_zero Sample.profile0 Sample.rates0 500
                    Sample.rx0 Sample.init)))).
    vm_compute. reflexivity.
Defined.

(** ** The D term of the integer controller *)

(** C4, as amended: in a cycle of the integer controller the D term of
    an axis is computed from the 3-sample moving sum itself (the current
    time-corrected delta plus the two persisted ones, low-pass filtered
    when a cut-off is configured), which is multiplied by the D gain and
    the weight factor, divided by 100 and shifted right by 8; the sum is
    not divided by 3. *)
Theorem mw_DTerm_uses_moving_sum (G : Z) (F : Type)
  (filter : float -> F -> Z -> float -> float * F)
  (env : Env) (p : pidProfile_t) (r : controlRateConfig_t) (m : Z) (rx : rxConfig_t)
  (st st' : State F) (dz : bool) (a : axis_t) :
  pidMultiWiiRewrite G filter env p r m rx st = Ok st' dz ->
  let delta := (mw_delta1 st').[a] in
  let deltaSum := (mw_delta1 st).[a] +i (mw_delta2 st).[a] +i delta in
  let smoothed :=
    if nonzero (dterm_cut_hz p)
    then fst (filter_i32 filter env deltaSum (DTermState st).[a] (dterm_cut_hz p))
    else deltaSum in
  delta =
    (((mw_lastError st').[a] -i (mw_lastError st).[a])
     *i (65535 /i (cycleTime env >>i 4))) >>i 6 /\
  (mw_delta2 st').[a] = (mw_delta1 st).[a] /\
  (axisPID_D st').[a] =
    (smoothed *i D8 p (pid_of a) *i (PIDweight env).[a] /i 100) >>i 8.
Proof.
  intros H. pose proof (mw_cycle_inv G F filter env p r m rx st st' dz a H) as K.
  cbv zeta in *. destruct K as (_ & _ & _ & KD & _ & KL & K1 & K2 & _).
  rewrite KL, K1, K2, KD. split_all; try reflexivity.
  unfold mw_DTerm, mw_deltaSum. destruct (nonzero (dterm_cut_hz p)); reflexivity.
Qed.

Lemma mw_DTerm_uses_moving_sum_witness :
  exists st',
    pidMultiWiiRewrite Sample.GYRO_I_MAX Pt1.filterApplyPt1 Inputs.env_gyro Sample.profile0
      Sample.rates0 500 Sample.rx0 Sample.init = Ok st' false /\
    (mw_delta1 st').[ROLL] = -1652 /\
    (axisPID_D st').[ROLL] = (-1652 *i 23 *i 100 /i 100) >>i 8.
Proof.
  eexists. split; [vm_compute; reflexivity|].
  split; [reflexivity|].
  exact (proj2 (proj2
    (mw_DTerm_uses_moving_sum Sample.GYRO_I_MAX _ Pt1.filterApplyPt1 Inputs.env_gyro
       Sample.profile0 Sample.rates0 500 Sample.rx0 Sample.init _ false ROLL
       eq_refl))).
Defined.

(** C4, the claim as stated fails: for a roll rotation measured from the
    initial state the moving sum is -1652 and the D term of the cycle is
    -149, while the term computed from the sum divided by 3 is -50. *)
Lemma mw_DTerm_not_averaged :
  exists st',
    pidMultiWiiRewrite Sample.GYRO_I_MAX Pt1.filterApplyPt1 Inputs.env_gyro Sample.profile0
      Sample.rates0 500 Sample.rx0 Sample.init = Ok st' false /\
    (mw_delta1 Sample.init).[ROLL] +i (mw_delta2 Sample.init).[ROLL]
      +i (mw_delta1 st').[ROLL] = -1652 /\
    (axisPID_D st').[ROLL] = -149 /\
    mw_DTerm_averaged Inputs.env_gyro Sample.profile0 (-1652) ROLL = -50 /\
    (axisPID_D st').[ROLL] <> mw_DTerm_averaged Inputs.env_gyro Sample.profile0 (-1652) ROLL.
Proof.
  eexists. split; [vm_compute; reflexivity|].
  split_all; try (vm_compute; reflexivity).
  vm_compute. intros H; discriminate H.
Qed.

(** ** The windup limit of the integrators *)

Lemma within_I_zero (G : Z) : 0 <= G -> within_I G 0.
Proof.
  intros H. unfold within_I. rewrite Z.shiftl_mul_pow2 by lia. cbn. lia.
Qed.

Lemma within_f_zero : within_f F32.f250 F32.zero.
Proof. split; reflexivity. Qed.

Lemma mw_errorGyroI_within (G : Z) (env : Env) (p : pidProfile_t) (RateError : Z)
  (a : axis_t) (acc : Z) :
  0 <= G < 2 ^ 18 -> within_I G (mw_errorGyroI G env p RateError a acc).
Proof.
  intros HG. unfold within_I, mw_errorGyroI, CInt.shl, CInt.neg.
  rewrite (i32_id (- G))
    by (unfold CInt.in_i32, CInt.INT32_MIN, CInt.INT32_MAX; lia).
  rewrite !Z.shiftl_mul_pow2 by lia.
  rewrite !i32_id by (unfold CInt.in_i32, CInt.INT32_MIN, CInt.INT32_MAX; lia).
  match goal with |- Z.abs (constrain ?x ?l ?u) <= _ =>
    pose proof (constrain_range x l u ltac:(lia)) end.
  lia.
Qed.

Lemma lux_errorGyroIf_within (env : Env) (p : pidProfile_t) (RateError : float)
  (a : axis_t) (acc : float) :
  within_f F32.f250 (lux_errorGyroIf env p RateError a acc).
Proof. unfold lux_errorGyroIf. exact (constrainf_within 16384000 (-16) _). Qed.

Lemma windup_ok_initial (G : Z) (F : Type) (filter0 : F) :
  0 <= G -> windup_ok G (initial filter0).
Proof.
  intros HG a. unfold initial. state_simpl.
  destruct a; cbn [get fill el_roll el_pitch el_yaw];
    (split; [apply within_I_zero; exact HG | exact within_f_zero]).
Qed.

Lemma windup_ok_reset (G : Z) (F : Type) (st : State F) :
  0 <= G -> windup_ok G (pidResetErrorGyro st).
Proof.
  intros HG a. unfold pidResetErrorGyro. state_simpl.
  destruct a; cbn [get set el_roll el_pitch el_yaw];
    (split; [apply within_I_zero; exact HG | exact within_f_zero]).
Qed.

Lemma windup_ok_mw (G : Z) (F : Type) (filter : float -> F -> Z -> float -> float * F)
  (env : Env) (p : pidProfile_t) (r : controlRateConfig_t) (m : Z) (rx : rxConfig_t)
  (st st' : State F) (dz : bool) :
  0 <= G < 2 ^ 18 -> windup_ok G st ->
  pidMultiWiiRewrite G filter env p r m rx st = Ok st' dz -> windup_ok G st'.
Proof.
  intros HG Hst H a.
  pose proof (mw_cycle_inv G F filter env p r m rx st st' dz a H) as K.
  cbv zeta in K. destruct K as (KI & _ & _ & _ & _ & _ & _ & _ & KF & _).
  rewrite KI, KF. split; [apply mw_errorGyroI_within; exact HG | apply Hst].
Qed.

Lemma windup_ok_lux (G : Z) (F : Type) (filter : float -> F -> Z -> float -> float * F)
  (env : Env) (p : pidProfile_t) (r : controlRateConfig_t) (m : Z) (rx : rxConfig_t)
  (st st' : State F) (dz : bool) :
  windup_ok G st ->
  pidLuxFloat filter env p r m rx st = Ok st' dz -> windup_ok G st'.
Proof.
  intros Hst H a.
  destruct (lux_cycle_inv F filter env p r m rx st st' dz a H) as (h & _ & K).
  cbv zeta in K. destruct K as (KF & _ & _ & _ & _ & _ & _ & _ & KI & _).
  rewrite KI, KF. split; [apply Hst | apply lux_errorGyroIf_within].
Qed.

Lemma windup_ok_run_op (G : Z) (F : Type)
  (filter : float -> F -> Z -> float -> float * F) (o : op) (st st' : State F)
  (dz : bool) :
  0 <= G < 2 ^ 18 -> windup_ok G st ->
  run_op G filter o st = Ok st' dz -> windup_ok G st'.
Proof.
  intros HG Hst H. destruct o as [env p r m rx | | type]; cbn [run_op] in H.
  - unfold pid_controller_call in H. destruct (pid_controller st).
    + exact (windup_ok_mw _ _ _ _ _ _ _ _ _ _ _ HG Hst H).
    + exact (windup_ok_lux _ _ _ _ _ _ _ _ _ _ _ Hst H).
  - injection H as <- _. apply windup_ok_reset. lia.
  - injection H as <- _. exact Hst.
Qed.

Lemma windup_ok_run (G : Z) (F : Type)
  (filter : float -> F -> Z -> float -> float * F) (ops : list op) :
  0 <= G < 2 ^ 18 ->
  forall (st st' : State F) (dz : bool),
    windup_ok G st -> run G filter ops st = Ok st' dz -> windup_ok G st'.
Proof.
  intros HG. induction ops as [|o ops IH]; intros st st' dz Hst H; cbn [run] in H.
  - injection H as <- _. exact Hst.
  - apply bind_Ok in H as (s1 & d1 & d2 & H1 & H2 & _).
    apply (IH s1 st' d2); [|exact H2].
    exact (windup_ok_run_op _ _ _ _ _ _ _ HG Hst H1).
Qed.

(** Rounding to [float] never makes a NaN: the mantissa stays
    non-negative through the shifts and the rounding. *)
Lemma shr_1_nonneg (mrs : shr_record) : 0 <= shr_m mrs -> 0 <= shr_m (shr_1 mrs).
Proof.
  destruct mrs as [m r s]. cbn [shr_m]. intros H.
  destruct m as [|q|q]; [cbn; lia| |lia].
  destruct q; cbn; lia.
Qed.

Lemma shr_nonneg (mrs : shr_record) (e n : Z) :
  0 <= shr_m mrs -> 0 <= shr_m (fst (shr mrs e n)).
Proof.
  intros H. unfold shr. destruct n as [|q|q]; cbn [fst]; try exact H.
  revert mrs H. unfold iter_pos.
  induction q as [q IH|q IH|]; intros mrs H.
  - apply IH, IH, shr_1_nonneg, H.
  - apply IH, IH, H.
  - apply shr_1_nonneg, H.
Qed.

Lemma shr_fexp_nonneg (m e : Z) (l : location) :
  0 <= m -> 0 <= shr_m (fst (shr_fexp F32.prec F32.emax m e l)).
Proof.
  intros H. unfold shr_fexp. apply shr_nonneg.
  destruct l as [|[ | | ]]; exact H.
Qed.

Lemma round_nearest_even_nonneg (mx : Z) (lx : location) :
  0 <= mx -> 0 <= round_nearest_even mx lx.
Proof.
  intros H. unfold round_nearest_even.
  destruct lx as [|[ | | ]]; try destruct (Z.even mx); lia.
Qed.

Lemma binary_round_aux_number (sx : bool) (mx ex : Z) (lx : location) :
  0 <= mx -> F32.is_nan (binary_round_aux F32.prec F32.emax sx mx ex lx) = false.
Proof.
  intros H. unfold binary_round_aux.
  pose proof (shr_fexp_nonneg mx ex lx H) as H1.
  destruct (shr_fexp F32.prec F32.emax mx ex lx) as [mrs' e']. cbn [fst] in H1.
  pose proof (shr_fexp_nonneg _ e' loc_Exact
                (round_nearest_even_nonneg _ (loc_of_shr_record mrs') H1)) as H2.
  destruct (shr_fexp F32.prec F32.emax
              (round_nearest_even (shr_m mrs') (loc_of_shr_record mrs')) e' loc_Exact)
    as [mrs'' e''].
  cbn [fst] in H2.
  destruct (shr_m mrs'') as [|q|q]; [reflexivity| |lia].
  destruct (e'' <=? F32.emax - F32.prec); reflexivity.
Qed.

Lemma binary_normalize_number (m e : Z) (szero : bool) :
  F32.is_nan (binary_normalize F32.prec F32.emax m e szero) = false.
Proof.
  unfold binary_normalize, binary_round.
  destruct m as [|q|q]; [reflexivity| |];
    match goal with |- context [shl_align ?a ?b ?c] => destruct (shl_align a b c) end;
    apply binary_round_aux_number; lia.
Qed.

(** A finite value plus a number is a number. *)
Lemma fadd_number (x y : float) :
  F32.is_finite x = true -> F32.is_nan y = false -> F32.is_nan (x +f y) = false.
Proof.
  intros Hx Hy. unfold F32.add.
  destruct x as [sx| | |sx mx ex]; try discriminate Hx;
    destruct y as [sy|sy| |sy my ey]; try discriminate Hy; cbn [SFadd];
    try reflexivity; try (destruct sx, sy; reflexivity).
  apply binary_normalize_number.
Qed.

(** The product of two finite values is a number. *)
Lemma fmul_number (x y : float) :
  F32.is_finite x = true -> F32.is_finite y = true -> F32.is_nan (x *f y) = false.
Proof.
  intros Hx Hy. unfold F32.mul.
  destruct x as [sx| | |sx mx ex]; try discriminate Hx;
    destruct y as [sy|sy| |sy my ey]; try discriminate Hy; cbn [SFmul];
    try reflexivity.
  apply binary_round_aux_number. lia.
Qed.

(** Ten times a number is a number. *)
Lemma fmul_f10_number (x : float) : F32.is_nan x = false -> F32.is_nan (x *f F32.f10) = false.
Proof.
  intros Hx. unfold F32.mul, F32.f10.
  destruct x as [sx|sx| |sx mx ex]; try discriminate Hx; cbn [SFmul]; try reflexivity.
  apply binary_round_aux_number. lia.
Qed.

(** A sufficient condition on the inputs of a cycle: when the rate error
    times the cycle duration and the I gain are finite, the increment
    is a number. *)
Lemma lux_increment_number (env : Env) (p : pidProfile_t) (r : controlRateConfig_t)
  (m : Z) (h : float) (a : axis_t) :
  F32.is_finite (lux_RateError env p r m h a *f dT env) = true ->
  F32.is_finite (I_f p).[a] = true ->
  F32.is_nan (lux_increment env p r m h a) = false.
Proof.
  intros H1 H2. unfold lux_increment.
  apply fmul_f10_number, fmul_number; assumption.
Qed.

(** A value of magnitude at most 250 is finite. *)
Lemma leb_f250_finite (x : float) :
  F32.leb (SFabs x) F32.f250 = true -> F32.is_finite x = true.
Proof.
  destruct x as [s|s| |s mx ex]; try reflexivity; intros H; vm_compute in H; discriminate H.
Qed.

Lemma constrainf_number (amt low high : float) :
  F32.is_nan amt = false -> F32.is_nan low = false -> F32.is_nan high = false ->
  F32.is_nan (constrainf amt low high) = false.
Proof.
  intros Ha Hl Hh. unfold constrainf.
  destruct (amt <f low); [exact Hl|]. destruct (high <f amt); [exact Hh | exact Ha].
Qed.

(** One accumulation: from an integrator within the limit, an increment
    that is a number leaves the integrator within the limit. *)
Lemma lux_errorGyroIf_bounded (env : Env) (p : pidProfile_t) (r : controlRateConfig_t)
  (m : Z) (h : float) (a : axis_t) (acc : float) :
  F32.leb (SFabs acc) F32.f250 = true ->
  F32.is_nan (lux_increment env p r m h a) = false ->
  F32.leb (SFabs (lux_errorGyroIf env p (lux_RateError env p r m h a) a acc)) F32.f250
  = true.
Proof.
  intros Hacc Hinc.
  apply (proj2 (lux_errorGyroIf_within env p (lux_RateError env p r m h a) a acc)).
  unfold lux_errorGyroIf. apply constrainf_number; [|reflexivity|reflexivity].
  apply fadd_number; [apply leb_f250_finite; exact Hacc | exact Hinc].
Qed.

Lemma float_bound_run_op (G : Z) (F : Type)
  (filter : float -> F -> Z -> float -> float * F) (o : op) (ops : list op)
  (st st' : State F) (dz : bool) (a : axis_t) :
  F32.leb (SFabs (errorGyroIf st).[a]) F32.f250 = true ->
  float_cycles_add_numbers (pid_controller st) (o :: ops) a = true ->
  run_op G filter o st = Ok st' dz ->
  F32.leb (SFabs (errorGyroIf st').[a]) F32.f250 = true /\
  float_cycles_add_numbers (pid_controller st') ops a = true.
Proof.
  intros Hst Hops H. destruct o as [env p r m rx | | type];
    cbn [run_op float_cycles_add_numbers] in H, Hops.
  - apply andb_true_iff in Hops as [Ho Hops].
    unfold pid_controller_call in H. destruct (pid_controller st) eqn:Ec.
    + pose proof (mw_cycle_inv G F filter env p r m rx st st' dz a H) as K.
      cbv zeta in K. destruct K as (_ & _ & _ & _ & _ & _ & _ & _ & KF & _).
      rewrite KF, (mw_cycle_controller G F filter env p r m rx st st' dz H), Ec.
      split; assumption.
    + destruct (lux_cycle_inv F filter env p r m rx st st' dz a H) as (h & Hh & K).
      cbv zeta in K. destruct K as (KF & _).
      rewrite KF, (lux_cycle_controller F filter env p r m rx st st' dz H), Ec.
      split; [|exact Hops].
      apply lux_errorGyroIf_bounded; [exact Hst|].
      cbn [increment_is_number] in Ho. rewrite Hh in Ho.
      apply negb_true_iff in Ho. exact Ho.
  - injection H as <- _. split; [|exact Hops].
    unfold pidResetErrorGyro. state_simpl.
    destruct a; cbn [get set el_roll el_pitch el_yaw]; reflexivity.
  - injection H as <- _. split; [exact Hst|].
    unfold pidSetController. state_simpl.
    destruct type; exact Hops.
Qed.

Lemma float_bound_run (G : Z) (F : Type)
  (filter : float -> F -> Z -> float -> float * F) (a : axis_t) (ops : list op) :
  forall (st st' : State F) (dz : bool),
    F32.leb (SFabs (errorGyroIf st).[a]) F32.f250 = true ->
    float_cycles_add_numbers (pid_controller st) ops a = true ->
    run G filter ops st = Ok st' dz ->
    F32.leb (SFabs (errorGyroIf st').[a]) F32.f250 = true.
Proof.
  induction ops as [|o ops IH]; intros st st' dz Hst Hops H; cbn [run] in H.
  - injection H as <- _. exact Hst.
  - apply bind_Ok in H as (s1 & d1 & d2 & H1 & H2 & _).
    destruct (float_bound_run_op G F filter o ops st s1 d1 a Hst Hops H1) as [K1 K2].
    exact (IH s1 st' d2 K1 K2 H2).
Qed.

(** C2: with [0 <= GYRO_I_MAX < 2^18], after every sequence of cycles,
    resets and controller selections from the initial state, on every
    axis the integer integrator satisfies
    [|errorGyroI[axis]| <= GYRO_I_MAX << 13] and the float integrator
    is never above 250 in magnitude.  When moreover the inputs of every
    cycle that the float controller runs give an increment
    [RateError * dT * I_f[axis] * 10] that is a number (not a NaN, which
    the clamp would hand on), the float integrator satisfies
    [|errorGyroIf[axis]| <= 250.0] after the sequence.  Within a cycle
    the integrator stored is the clamp of the accumulation, and the I
    term that enters the output is taken from it after the clamp: the
    integer controller uses the clamped [errorGyroI[axis]] shifted right
    by 13, the float controller the clamped [errorGyroIf[axis]]. *)
Theorem windup_limit (G : Z) (F : Type) (filter : float -> F -> Z -> float -> float * F) :
  0 <= G < 2 ^ 18 ->
  (forall (filter0 : F) (ops : list op) (st' : State F) (dz : bool),
     run G filter ops (initial filter0) = Ok st' dz -> windup_ok G st') /\
  (forall (filter0 : F) (ops : list op) (st' : State F) (dz : bool) (a : axis_t),
     float_cycles_add_numbers (pid_controller (initial filter0)) ops a = true ->
     run G filter ops (initial filter0) = Ok st' dz ->
     F32.leb (SFabs (errorGyroIf st').[a]) F32.f250 = true) /\
  (forall env p r m rx (st st' : State F) dz a,
     pidMultiWiiRewrite G filter env p r m rx st = Ok st' dz ->
     let RateError := (mw_lastError st').[a] in
     (errorGyroI st').[a] =
       constrain
         ((errorGyroI st).[a]
          +i (((RateError *i cycleTime env) >>i 11) *i I8 p (pid_of a)))
         (CInt.neg G <<i 13) (G <<i 13) /\
     within_I G (errorGyroI st').[a] /\
     (axisPID_I st').[a] = (errorGyroI st').[a] >>i 13 /\
     (axisPID st').[a] =
       CInt.i16 ((axisPID_P st').[a] +i ((errorGyroI st').[a] >>i 13)
                 +i (axisPID_D st').[a])) /\
  (forall env p r m rx (st st' : State F) dz a,
     pidLuxFloat filter env p r m rx st = Ok st' dz ->
     let RateError := (lux_lastError st').[a] in
     let PTerm := fst (lux_PTerm filter env p RateError a (PTermState st).[a]) in
     let DTerm :=
       lux_DTerm env p
         (fst (lux_deltaSum filter env p (lux_delta1 st).[a] (lux_delta2 st).[a]
                 (lux_delta1 st').[a] (DTermState st).[a])) a in
     (errorGyroIf st').[a] =
       constrainf
         ((errorGyroIf st).[a] +f RateError *f dT env *f (I_f p).[a] *f F32.f10)
         F32.fm250 F32.f250 /\
     within_f F32.f250 (errorGyroIf st').[a] /\
     (axisPID_I st').[a] = F32.to_i32 (errorGyroIf st').[a] /\
     (axisPID st').[a] =
       CInt.i16
         (constrain (F32.lrintf (PTerm +f (errorGyroIf st').[a] +f DTerm)) (-1000) 1000)).
Proof.
  intros HG. split_all.
  - intros filter0 ops st' dz H.
    apply (windup_ok_run G F filter ops HG (initial filter0) st' dz); [|exact H].
    apply windup_ok_initial. lia.
  - intros filter0 ops st' dz a Hops H.
    apply (float_bound_run G F filter a ops (initial filter0) st' dz); [|exact Hops|exact H].
    unfold initial. state_simpl.
    destruct a; cbn [get fill el_roll el_pitch el_yaw]; reflexivity.
  - intros env p r m rx st st' dz a H.
    pose proof (mw_cycle_inv G F filter env p r m rx st st' dz a H) as K.
    cbv zeta in *. destruct K as (KI & _ & KT & _ & KO & KL & _).
    rewrite KL. split_all.
    + exact KI.
    + rewrite KI. apply mw_errorGyroI_within. exact HG.
    + exact KT.
    + rewrite KO, KT. reflexivity.
  - intros env p r m rx st st' dz a H.
    destruct (lux_cycle_inv F filter env p r m rx st st' dz a H) as (h & _ & K).
    cbv zeta in *. destruct K as (KF & _ & KT & _ & KO & KL & K1 & _).
    rewrite KL, K1. split_all.
    + exact KF.
    + rewrite KF. apply lux_errorGyroIf_within.
    + exact KT.
    + exact KO.
Qed.

Lemma windup_limit_witness :
  exists st',
    run Sample.GYRO_I_MAX Pt1.filterApplyPt1 More.spin Sample.init = Ok st' false /\
    windup_ok Sample.GYRO_I_MAX st' /\
    (errorGyroIf st').[FD_ROLL] = F32.f250 /\
    F32.leb (SFabs (errorGyroIf st').[FD_ROLL]) F32.f250 = true.
Proof.
  eexists. split; [vm_compute; reflexivity|].
  split; [|split; [vm_compute; reflexivity|]].
  - refine (proj1 (windup_limit Sample.GYRO_I_MAX _ Pt1.filterApplyPt1 _) Pt1.zero
              More.spin _ false _).
    + vm_compute. split; [intros H; discriminate H | reflexivity].
    + vm_compute. reflexivity.
  - refine (proj1 (proj2 (windup_limit Sample.GYRO_I_MAX _ Pt1.filterApplyPt1 _)) Pt1.zero
              More.spin _ false FD_ROLL _ _).
    + vm_compute. split; [intros H; discriminate H | reflexivity].
    + vm_compute. reflexivity.
    + vm_compute. reflexivity.
Defined.

(** ** Reset of the integrators *)

Lemma mw_errorGyroI_zero (G : Z) (env : Env) (p : pidProfile_t) (a : axis_t) :
  0 <= G < 2 ^ 18 -> mw_errorGyroI G env p 0 a 0 = 0.
Proof.
  intros HG. unfold mw_errorGyroI.
  replace (0 +i ((0 *i cycleTime env) >>i 11) *i I8 p (pid_of a)) with 0.
  - unfold CInt.shl, CInt.neg.
    rewrite (i32_id (- G))
      by (unfold CInt.in_i32, CInt.INT32_MIN, CInt.INT32_MAX; lia).
    rewrite !Z.shiftl_mul_pow2 by lia.
    rewrite !i32_id by (unfold CInt.in_i32, CInt.INT32_MIN, CInt.INT32_MAX; lia).
    apply constrain_id. lia.
  - unfold CInt.add, CInt.mul, CInt.shr. rewrite Z.mul_0_l.
    change (CInt.i32 0) with 0. reflexivity.
Qed.

Lemma lux_errorGyroIf_zero (env : Env) (p : pidProfile_t) (RateError : float)
  (a : axis_t) :
  F32.is_zero RateError = true ->
  F32.is_finite (dT env) = true ->
  F32.is_finite (I_f p).[a] = true ->
  lux_errorGyroIf env p RateError a F32.zero = F32.zero.
Proof.
  unfold lux_errorGyroIf. intros HR HT HI.
  destruct RateError as [s | | | ]; try discriminate HR.
  destruct (dT env) as [s1 | | | s1 m1 e1]; try discriminate HT;
    destruct ((I_f p).[a]) as [s2 | | | s2 m2 e2]; try discriminate HI;
    destruct s, s1, s2; reflexivity.
Qed.

(** C6: after [pidResetErrorGyro] both integrators are exactly zero on
    every axis, and a second reset changes nothing.  From a state whose
    integrator is zero on an axis (as the reset leaves it), a cycle
    whose rate error is zero on that axis leaves the integrator and the
    I term of the axis at zero: for the integer controller with
    [cycleTime >= 16] and [0 <= GYRO_I_MAX < 2^18], for the float
    controller with finite [dT] and [I_f[axis]]. *)
Theorem reset_zeroes_integrators (G : Z) (F : Type)
  (filter : float -> F -> Z -> float -> float * F)
  (env : Env) (p : pidProfile_t) (r : controlRateConfig_t) (m : Z) (rx : rxConfig_t)
  (st : State F) (a : axis_t) :
  ((errorGyroI (pidResetErrorGyro st)).[a] = 0 /\
   (errorGyroIf (pidResetErrorGyro st)).[a] = F32.zero /\
   pidResetErrorGyro (pidResetErrorGyro st) = pidResetErrorGyro st) /\
  (0 <= G < 2 ^ 18 ->
   16 <= cycleTime env ->
   (errorGyroI st).[a] = 0 ->
   mw_RateError env p r m (mw_horizonLevelStrength env p rx) a = 0 ->
   exists st',
     pidMultiWiiRewrite G filter env p r m rx st = Ok st' false /\
     (errorGyroI st').[a] = 0 /\ (axisPID_I st').[a] = 0) /\
  (F32.is_finite (dT env) = true ->
   F32.is_finite (I_f p).[a] = true ->
   (errorGyroIf st).[a] = F32.zero ->
   (exists h, lux_horizonLevelStrength env p rx = Ok h false /\
              F32.is_zero (lux_RateError env p r m h a) = true) ->
   exists st' dz,
     pidLuxFloat filter env p r m rx st = Ok st' dz /\
     (errorGyroIf st').[a] = F32.zero /\ (axisPID_I st').[a] = 0).
Proof.
  split_all.
  - destruct a; reflexivity.
  - destruct a; reflexivity.
  - reflexivity.
  - intros HG Hc Hacc Herr.
    destruct (mw_cycle_Ok G F filter env p r m rx st (shiftr4_nonzero _ Hc)) as [st' H].
    exists st'. split; [exact H|].
    pose proof (mw_cycle_inv G F filter env p r m rx st st' false a H) as K.
    cbv zeta in K. destruct K as (KI & _ & KT & _).
    rewrite Herr, Hacc, (mw_errorGyroI_zero G env p a HG) in KI.
    rewrite KT, KI. split; reflexivity.
  - intros HT HI Hacc (h & Hh & Herr).
    destruct (lux_cycle_Ok F filter env p r m rx st) as [st' H].
    exists st', (F32.is_zero (dT env)). split; [exact H|].
    destruct (lux_cycle_inv F filter env p r m rx st st' _ a H) as (h' & Hh' & K).
    rewrite Hh in Hh'. injection Hh' as <-.
    cbv zeta in K. destruct K as (KF & _ & KT & _).
    rewrite Hacc, (lux_errorGyroIf_zero env p _ a Herr HT HI) in KF.
    rewrite KT, KF. split; reflexivity.
Qed.

Lemma reset_zeroes_integrators_witness :
  (exists st',
     pidMultiWiiRewrite Sample.GYRO_I_MAX Pt1.filterApplyPt1 Sample.env0 Sample.profile0
       Sample.rates0 500 Sample.rx0 (pidResetErrorGyro Sample.init) = Ok st' false /\
     (errorGyroI st').[ROLL] = 0 /\ (axisPID_I st').[ROLL] = 0) /\
  (exists st' dz,
     pidLuxFloat Pt1.filterApplyPt1 Sample.env0 Sample.profile0 Sample.rates0 500
       Sample.rx0 (pidResetErrorGyro Sample.init) = Ok st' dz /\
     (errorGyroIf st').[ROLL] = F32.zero /\ (axisPID_I st').[ROLL] = 0).
Proof.
  pose proof (reset_zeroes_integrators Sample.GYRO_I_MAX _ Pt1.filterApplyPt1 Sample.env0
                Sample.profile0 Sample.rates0 500 Sample.rx0
                (pidResetErrorGyro Sample.init) ROLL) as (_ & M & L).
  split.
  - apply M.
    + vm_compute. split; [intros H; discriminate H | reflexivity].
    + vm_compute. intros H; discriminate H.
    + reflexivity.
    + vm_compute. reflexivity.
  - apply L.
    + reflexivity.
    + reflexivity.
    + reflexivity.
    + exists F32.one. split; vm_compute; reflexivity.
Defined.

(** ** The horizon strength *)

Ltac by_range z lo n :=
  match goal with
  | |- ?B = true =>
      let f := eval pattern z in B in
      match f with
      | ?P _ => exact (forall_range P lo n ltac:(vm_compute; reflexivity) z ltac:(lia))
      end
  end.

Lemma mul_zero_l (x : Z) : 0 *i x = 0.
Proof. unfold CInt.mul. rewrite Z.mul_0_l. reflexivity. Qed.

Lemma mul_zero_r (x : Z) : x *i 0 = 0.
Proof. unfold CInt.mul. rewrite Z.mul_0_r. reflexivity. Qed.

(** C3, as amended: in horizon mode,
    - float controller: at zero stick deflection the strength is 1.0
      for every sensitivity from 1 to 255; with sensitivity 0 it is 0.0
      whatever the sticks; at deflection 500 it is 0.0 for every
      sensitivity from 1 to 100;
    - integer controller: at zero stick deflection the strength is 100
      for every sensitivity; with sensitivity 0 it is 100 whatever the
      sticks; at deflection 500 it is 0 for every sensitivity from 80
      to 255. *)
Theorem horizon_strength (env : Env) (p : pidProfile_t) (rx : rxConfig_t) :
  FLIGHT_MODE env HORIZON_MODE = true ->
  (mostDeflectedPos env rx = 0 -> 1 <= H_sensitivity p <= 255 ->
   lux_horizonLevelStrength env p rx = Ok F32.one false) /\
  (H_sensitivity p = 0 ->
   lux_horizonLevelStrength env p rx = Ok F32.zero false) /\
  (mostDeflectedPos env rx = 500 -> 1 <= H_sensitivity p <= 100 ->
   lux_horizonLevelStrength env p rx = Ok F32.zero false) /\
  (mostDeflectedPos env rx = 0 ->
   mw_horizonLevelStrength env p rx = 100) /\
  (D8 p PIDLEVEL = 0 ->
   mw_horizonLevelStrength env p rx = 100) /\
  (mostDeflectedPos env rx = 500 -> 80 <= D8 p PIDLEVEL <= 255 ->
   mw_horizonLevelStrength env p rx = 0).
Proof.
  intros Hmode. unfold lux_horizonLevelStrength, mw_horizonLevelStrength, idiv.
  rewrite Hmode. split_all.
  - intros -> Hs.
    destruct (Z.eqb_spec (H_sensitivity p) 0) as [E | _]; [lia|].
    cbn [bind ret orb]. f_equal. apply same_float_eq.
    by_range (H_sensitivity p) 1 255%nat.
  - intros ->. reflexivity.
  - intros -> Hs.
    destruct (Z.eqb_spec (H_sensitivity p) 0) as [E | _]; [lia|].
    cbn [bind ret orb]. f_equal. apply same_float_eq.
    by_range (H_sensitivity p) 1 100%nat.
  - intros ->.
    change (CInt.i8 ((500 -i 0) /i 5) -i 100) with 0.
    change (10 *i 0) with 0. rewrite mul_zero_l. reflexivity.
  - intros ->.
    change (10 *i 0 /i 80) with 0. rewrite mul_zero_r. reflexivity.
  - intros -> Hs. apply Z.eqb_eq.
    by_range (D8 p PIDLEVEL) 80 176%nat.
Qed.

Lemma horizon_strength_witness :
  lux_horizonLevelStrength (Inputs.env_horizon 0) (Inputs.profile_sensitivity 75)
    Sample.rx0 = Ok F32.one false /\
  lux_horizonLevelStrength (Inputs.env_horizon 250) (Inputs.profile_sensitivity 0)
    Sample.rx0 = Ok F32.zero false /\
  lux_horizonLevelStrength (Inputs.env_horizon 500) (Inputs.profile_sensitivity 75)
    Sample.rx0 = Ok F32.zero false /\
  mw_horizonLevelStrength (Inputs.env_horizon 0) (Inputs.profile_sensitivity 100)
    Sample.rx0 = 100 /\
  mw_horizonLevelStrength (Inputs.env_horizon 250) (Inputs.profile_sensitivity 0)
    Sample.rx0 = 100 /\
  mw_horizonLevelStrength (Inputs.env_horizon 500) (Inputs.profile_sensitivity 100)
    Sample.rx0 = 0.
Proof.
  split_all.
  - apply (proj1 (horizon_strength (Inputs.env_horizon 0) (Inputs.profile_sensitivity 75)
                    Sample.rx0 eq_refl)).
    + reflexivity.
    + vm_compute. split; intros H; discriminate H.
  - apply (proj1 (proj2 (horizon_strength (Inputs.env_horizon 250)
                    (Inputs.profile_sensitivity 0) Sample.rx0 eq_refl))).
    reflexivity.
  - apply (proj1 (proj2 (proj2 (horizon_strength (Inputs.env_horizon 500)
                    (Inputs.profile_sensitivity 75) Sample.rx0 eq_refl)))).
    + reflexivity.
    + vm_compute. split; intros H; discriminate H.
  - apply (proj1 (proj2 (proj2 (proj2 (horizon_strength (Inputs.env_horizon 0)
                    (Inputs.profile_sensitivity 100) Sample.rx0 eq_refl))))).
    reflexivity.
  - apply (proj1 (proj2 (proj2 (proj2 (proj2 (horizon_strength (Inputs.env_horizon 250)
                    (Inputs.profile_sensitivity 0) Sample.rx0 eq_refl)))))).
    reflexivity.
  - apply (proj2 (proj2 (proj2 (proj2 (proj2 (horizon_strength (Inputs.env_horizon 500)
                    (Inputs.profile_sensitivity 100) Sample.rx0 eq_refl)))))).
    + reflexivity.
    + vm_compute. split; intros H; discriminate H.
Defined.

(** C3, the claim as stated fails twice.  Integer controller: with
    sensitivity 0 the strength is 100, not 0 (here at half deflection).
    Float controller: at deflection 500 with sensitivity 200 the
    strength is 1.0, not 0.0. *)
Lemma horizon_strength_claim_fails :
  mw_horizonLevelStrength (Inputs.env_horizon 250) (Inputs.profile_sensitivity 0)
    Sample.rx0 = 100 /\
  lux_horizonLevelStrength (Inputs.env_horizon 500) (Inputs.profile_sensitivity 200)
    Sample.rx0 = Ok F32.one false /\
  100 <> 0 /\ Ok F32.one false <> Ok F32.zero false.
Proof.
  split_all; try (vm_compute; reflexivity); intros H; discriminate H.
Qed.

(** ** The D term of the float controller *)

Lemma lux_DTerm_within (env : Env) (p : pidProfile_t) (deltaSum : float) (a : axis_t) :
  within_f F32.f300 (lux_DTerm env p deltaSum a).
Proof. unfold lux_DTerm. exact (constrainf_within 9830400 (-15) _). Qed.

(** C5, as amended: in a cycle of the float controller the clamp to
    [-300, 300] acts on the gain-scaled quantity: the D term of an axis
    is the clamp of [(deltaSum / 3) * D_f[axis] * PIDweight[axis] / 100],
    where [deltaSum] is the (possibly filtered) moving sum, so the D
    term itself never exceeds 300 in magnitude whatever the gain; the
    averaged sum is not clamped before the scaling. *)
Theorem lux_DTerm_clamps_product (F : Type)
  (filter : float -> F -> Z -> float -> float * F)
  (env : Env) (p : pidProfile_t) (r : controlRateConfig_t) (m : Z) (rx : rxConfig_t)
  (st st' : State F) (dz : bool) (a : axis_t) :
  pidLuxFloat filter env p r m rx st = Ok st' dz ->
  let deltaSum :=
    fst (lux_deltaSum filter env p (lux_delta1 st).[a] (lux_delta2 st).[a]
           (lux_delta1 st').[a] (DTermState st).[a]) in
  let scaled :=
    (deltaSum /f F32.f3) *f (D_f p).[a] *f F32.of_Z (PIDweight env).[a] /f F32.f100 in
  let DTerm := constrainf scaled F32.fm300 F32.f300 in
  (axisPID_D st').[a] = F32.to_i32 DTerm /\
  within_f F32.f300 DTerm /\
  ((F32.f300 <f SFabs scaled) = false -> DTerm = scaled).
Proof.
  intros H. destruct (lux_cycle_inv F filter env p r m rx st st' dz a H) as (h & _ & K).
  cbv zeta in *. destruct K as (_ & _ & _ & KD & _ & _ & K1 & _).
  rewrite K1, KD. split_all.
  - reflexivity.
  - apply lux_DTerm_within.
  - exact (constrainf_id 9830400 (-15) _).
Qed.

Lemma lux_DTerm_clamps_product_witness :
  exists st',
    pidLuxFloat Pt1.filterApplyPt1 Inputs.env_gyro3 Inputs.profile_half_D Sample.rates0 500
      Sample.rx0 Sample.init = Ok st' false /\
    (axisPID_D st').[ROLL] = 300 /\
    within_f F32.f300
      (constrainf
         ((fst (lux_deltaSum Pt1.filterApplyPt1 Inputs.env_gyro3 Inputs.profile_half_D
                  (lux_delta1 Sample.init).[ROLL] (lux_delta2 Sample.init).[ROLL]
                  (lux_delta1 st').[ROLL] (DTermState Sample.init).[ROLL]) /f F32.f3)
          *f (D_f Inputs.profile_half_D).[ROLL]
          *f F32.of_Z (PIDweight Inputs.env_gyro3).[ROLL] /f F32.f100)
         F32.fm300 F32.f300).
Proof.
  eexists. split; [vm_compute; reflexivity|].
  split; [reflexivity|].
  exact (proj1 (proj2
    (lux_DTerm_clamps_product _ Pt1.filterApplyPt1 Inputs.env_gyro3 Inputs.profile_half_D
       Sample.rates0 500 Sample.rx0 Sample.init _ false ROLL eq_refl))).
Defined.

(** C5, the claim as stated fails: with a D gain of 0.5 and a moving sum
    of about 3000 the D term of the cycle is 300 (the product 500,
    clamped), while clamping the averaged sum to [-300, 300] before the
    scaling gives 150. *)
Lemma lux_DTerm_not_clamped_first :
  exists st',
    pidLuxFloat Pt1.filterApplyPt1 Inputs.env_gyro3 Inputs.profile_half_D Sample.rates0 500
      Sample.rx0 Sample.init = Ok st' false /\
    (axisPID_D st').[ROLL] = 300 /\
    F32.to_i32
      (lux_DTerm_clamped_first Inputs.env_gyro3 Inputs.profile_half_D
         (fst (lux_deltaSum Pt1.filterApplyPt1 Inputs.env_gyro3 Inputs.profile_half_D
                 (lux_delta1 Sample.init).[ROLL] (lux_delta2 Sample.init).[ROLL]
                 (lux_delta1 st').[ROLL] (DTermState Sample.init).[ROLL]))
         ROLL) = 150 /\
    lux_DTerm Inputs.env_gyro3 Inputs.profile_half_D
      (fst (lux_deltaSum Pt1.filterApplyPt1 Inputs.env_gyro3 Inputs.profile_half_D
              (lux_delta1 Sample.init).[ROLL] (lux_delta2 Sample.init).[ROLL]
              (lux_delta1 st').[ROLL] (DTermState Sample.init).[ROLL]))
      ROLL
    <> lux_DTerm_clamped_first Inputs.env_gyro3 Inputs.profile_half_D
         (fst (lux_deltaSum Pt1.filterApplyPt1 Inputs.env_gyro3 Inputs.profile_half_D
                 (lux_delta1 Sample.init).[ROLL] (lux_delta2 Sample.init).[ROLL]
                 (lux_delta1 st').[ROLL] (DTermState Sample.init).[ROLL]))
         ROLL.
Proof.
  eexists. split; [vm_compute; reflexivity|].
  split_all; try (vm_compute; reflexivity).
  vm_compute. intros H; discriminate H.
Qed.

(** * Further properties of the controllers *)

Lemma arr3_ext {A : Type} (x y : arr3 A) : (forall a, x.[a] = y.[a]) -> x = y.
Proof.
  intros H. destruct x as [x0 x1 x2], y as [y0 y1 y2].
  pose proof (H FD_ROLL) as H0. pose proof (H FD_PITCH) as H1.
  pose proof (H FD_YAW) as H2. cbn in H0, H1, H2. congruence.
Qed.

Lemma for_axes_ext {S : Type} (body1 body2 : axis_t -> S -> outcome S) (s : S) :
  (forall a s0, body1 a s0 = body2 a s0) -> for_axes body1 s = for_axes body2 s.
Proof.
  intros H. unfold for_axes, bind. rewrite H.
  destruct (body2 FD_ROLL s) as [s0 d0|]; [|reflexivity].
  rewrite H. destruct (body2 FD_PITCH s0) as [s1 d1|]; [|reflexivity].
  rewrite H. reflexivity.
Qed.

(** ** Disabled filters *)

Section Bypass.

Variable G : Z.
Variable F : Type.
Variable filter1 filter2 : float -> F -> Z -> float -> float * F.
Variable env : Env.
Variable p : pidProfile_t.
Variable r : controlRateConfig_t.
Variable m : Z.
Variable rx : rxConfig_t.

Hypothesis Hp : pterm_cut_hz p = 0.
Hypothesis Hd : dterm_cut_hz p = 0.

Lemma mw_axis_bypass (h : Z) (a : axis_t) (st : State F) :
  mw_axis G filter1 env p r m h a st = mw_axis G filter2 env p r m h a st.
Proof. unfold mw_axis, mw_PTerm, mw_deltaSum. rewrite Hp, Hd. reflexivity. Qed.

Lemma lux_axis_bypass (h : float) (a : axis_t) (st : State F) :
  lux_axis filter1 env p r m h a st = lux_axis filter2 env p r m h a st.
Proof. unfold lux_axis, lux_PTerm, lux_deltaSum. rewrite Hp, Hd. reflexivity. Qed.

(** X1: with both cut-off frequencies at zero a cycle of either
    controller never calls the filter: its result is the same whatever
    the filter function, and the states of the P-term and D-term
    filters are the same after the cycle. *)
Theorem filter_bypass (st : State F) :
  pidMultiWiiRewrite G filter1 env p r m rx st
    = pidMultiWiiRewrite G filter2 env p r m rx st /\
  pidLuxFloat filter1 env p r m rx st = pidLuxFloat filter2 env p r m rx st /\
  (forall st' dz,
     pidMultiWiiRewrite G filter1 env p r m rx st = Ok st' dz ->
     PTermState st' = PTermState st /\ DTermState st' = DTermState st) /\
  (forall st' dz,
     pidLuxFloat filter1 env p r m rx st = Ok st' dz ->
     PTermState st' = PTermState st /\ DTermState st' = DTermState st).
Proof.
  split_all.
  - unfold pidMultiWiiRewrite. apply for_axes_ext. intros a s0. apply mw_axis_bypass.
  - unfold pidLuxFloat, bind.
    destruct (lux_horizonLevelStrength env p rx) as [h d|]; [|reflexivity].
    rewrite (for_axes_ext _ (lux_axis filter2 env p r m h));
      [reflexivity | intros a s0; apply lux_axis_bypass].
  - intros st' dz H. split; apply arr3_ext; intros a;
      pose proof (mw_cycle_inv G F filter1 env p r m rx st st' dz a H) as K;
      cbv zeta in K; destruct K as (_ & _ & _ & _ & _ & _ & _ & _ & _ & _ & _ & _ & KP & KD).
    + rewrite KP. unfold mw_PTerm. rewrite Hp. reflexivity.
    + rewrite KD. unfold mw_deltaSum. rewrite Hd. reflexivity.
  - intros st' dz H. split; apply arr3_ext; intros a;
      destruct (lux_cycle_inv F filter1 env p r m rx st st' dz a H) as (h & _ & K);
      cbv zeta in K; destruct K as (_ & _ & _ & _ & _ & _ & _ & _ & _ & _ & _ & _ & KP & KD).
    + rewrite KP. unfold lux_PTerm. rewrite Hp. reflexivity.
    + rewrite KD. unfold lux_deltaSum. rewrite Hd. reflexivity.
Qed.

End Bypass.

Lemma filter_bypass_witness :
  pidMultiWiiRewrite Sample.GYRO_I_MAX Pt1.filterApplyPt1 Inputs.env_gyro Sample.profile0
    Sample.rates0 500 Sample.rx0 Sample.init
  = pidMultiWiiRewrite Sample.GYRO_I_MAX More.filter_hold Inputs.env_gyro Sample.profile0
      Sample.rates0 500 Sample.rx0 Sample.init /\
  pidLuxFloat Pt1.filterApplyPt1 Inputs.env_gyro Sample.profile0 Sample.rates0 500
    Sample.rx0 Sample.init
  = pidLuxFloat More.filter_hold Inputs.env_gyro Sample.profile0 Sample.rates0 500
      Sample.rx0 Sample.init.
Proof.
  pose proof (filter_bypass Sample.GYRO_I_MAX _ Pt1.filterApplyPt1 More.filter_hold
                Inputs.env_gyro Sample.profile0 Sample.rates0 500 Sample.rx0
                eq_refl eq_refl Sample.init) as (A & B & _).
  split; [exact A | exact B].
Defined.

(** ** Each axis on its own *)

Section Locality.

Variable G : Z.
Variable F : Type.
Variable filter : float -> F -> Z -> float -> float * F.
Variable env : Env.
Variable p : pidProfile_t.
Variable r : controlRateConfig_t.
Variable m : Z.
Variable rx : rxConfig_t.

Lemma for_axes_slot (body : axis_t -> State F -> outcome (State F))
  (s1 s2 s1' s2' : State F) (d1 d2 : bool) (a : axis_t) :
  axis_local body ->
  slot s1 a = slot s2 a ->
  for_axes body s1 = Ok s1' d1 -> for_axes body s2 = Ok s2' d2 ->
  slot s1' a = slot s2' a.
Proof.
  intros L Hs H1 H2.
  destruct (for_axes_local body s1 s1' d1 L H1) as [_ K1].
  destruct (for_axes_local body s2 s2' d2 L H2) as [_ K2].
  destruct (K1 a) as (sa1 & da1 & B1 & E1).
  destruct (K2 a) as (sa2 & da2 & B2 & E2).
  destruct L as [_ Lown].
  destruct (Lown a s1 s2 sa1 da1 Hs B1) as (sb & B3 & E3).
  rewrite B2 in B3. injection B3 as <- _.
  rewrite <- E1, <- E2, E3. reflexivity.
Qed.

(** X2: the axes of a cycle do not interact.  For either controller,
    two states that agree on the entries of one axis (in every per-axis
    array) agree on the entries of that axis after a cycle on the same
    inputs, whatever the entries of the other two axes are. *)
Theorem cycle_axis_local (s1 s2 s1' s2' : State F) (d1 d2 : bool) (a : axis_t) :
  slot s1 a = slot s2 a ->
  (pidMultiWiiRewrite G filter env p r m rx s1 = Ok s1' d1 ->
   pidMultiWiiRewrite G filter env p r m rx s2 = Ok s2' d2 ->
   slot s1' a = slot s2' a) /\
  (pidLuxFloat filter env p r m rx s1 = Ok s1' d1 ->
   pidLuxFloat filter env p r m rx s2 = Ok s2' d2 ->
   slot s1' a = slot s2' a).
Proof.
  intros Hs. split.
  - unfold pidMultiWiiRewrite. intros H1 H2.
    exact (for_axes_slot _ _ _ _ _ _ _ a (mw_axis_local G F filter env p r m _) Hs H1 H2).
  - unfold pidLuxFloat. intros H1 H2.
    apply bind_Ok in H1 as (h1 & e1 & e1' & Hh1 & H1 & _).
    apply bind_Ok in H2 as (h2 & e2 & e2' & Hh2 & H2 & _).
    rewrite Hh1 in Hh2. injection Hh2 as <- _.
    exact (for_axes_slot _ _ _ _ _ _ _ a (lux_axis_local F filter env p r m h1) Hs H1 H2).
Qed.

(** X3: the two controllers keep their own integrator and derivative
    history.  A cycle of the integer controller leaves [errorGyroIf] and
    the float controller's [lastError], [delta1], [delta2] as they are;
    a cycle of the float controller leaves [errorGyroI] and the integer
    controller's [lastError], [delta1], [delta2] as they are; neither
    changes the selected controller. *)
Theorem controllers_keep_apart (st st' : State F) (dz : bool) :
  (pidMultiWiiRewrite G filter env p r m rx st = Ok st' dz ->
   errorGyroIf st' = errorGyroIf st /\
   lux_lastError st' = lux_lastError st /\
   lux_delta1 st' = lux_delta1 st /\
   lux_delta2 st' = lux_delta2 st /\
   pid_controller st' = pid_controller st) /\
  (pidLuxFloat filter env p r m rx st = Ok st' dz ->
   errorGyroI st' = errorGyroI st /\
   mw_lastError st' = mw_lastError st /\
   mw_delta1 st' = mw_delta1 st /\
   mw_delta2 st' = mw_delta2 st /\
   pid_controller st' = pid_controller st).
Proof.
  split; intros H.
  - split_all; try (apply arr3_ext; intros a;
      pose proof (mw_cycle_inv G F filter env p r m rx st st' dz a H) as K;
      cbv zeta in K;
      destruct K as (_ & _ & _ & _ & _ & _ & _ & _ & K1 & K2 & K3 & K4 & _);
      assumption).
    exact (mw_cycle_controller G F filter env p r m rx st st' dz H).
  - split_all; try (apply arr3_ext; intros a;
      destruct (lux_cycle_inv F filter env p r m rx st st' dz a H) as (h & _ & K);
      cbv zeta in K;
      destruct K as (_ & _ & _ & _ & _ & _ & _ & _ & K1 & K2 & K3 & K4 & _);
      assumption).
    exact (lux_cycle_controller F filter env p r m rx st st' dz H).
Qed.

End Locality.

Lemma cycle_axis_local_witness :
  exists s1' s2',
    pidMultiWiiRewrite Sample.GYRO_I_MAX Pt1.filterApplyPt1 Inputs.env_gyro Sample.profile0
      Sample.rates0 500 Sample.rx0 Sample.init = Ok s1' false /\
    pidMultiWiiRewrite Sample.GYRO_I_MAX Pt1.filterApplyPt1 Inputs.env_gyro Sample.profile0
      Sample.rates0 500 Sample.rx0 More.saturated = Ok s2' false /\
    slot s1' ROLL = slot s2' ROLL.
Proof.
  eexists. eexists. split; [vm_compute; reflexivity|].
  split; [vm_compute; reflexivity|].
  refine (proj1 (cycle_axis_local Sample.GYRO_I_MAX _ Pt1.filterApplyPt1 Inputs.env_gyro
                   Sample.profile0 Sample.rates0 500 Sample.rx0 Sample.init More.saturated
                   _ _ false false ROLL _) _ _).
  - reflexivity.
  - vm_compute. reflexivity.
  - vm_compute. reflexivity.
Defined.

Lemma controllers_keep_apart_witness :
  exists st',
    pidMultiWiiRewrite Sample.GYRO_I_MAX Pt1.filterApplyPt1 Inputs.env_yaw Sample.profile0
      Inputs.rates100 500 Sample.rx0 Sample.init = Ok st' false /\
    errorGyroIf st' = errorGyroIf Sample.init /\
    pid_controller st' = pid_controller Sample.init.
Proof.
  eexists. split; [vm_compute; reflexivity|].
  match goal with
  | |- errorGyroIf ?s = _ /\ _ =>
      pose proof (proj1 (controllers_keep_apart Sample.GYRO_I_MAX _ Pt1.filterApplyPt1
                           Inputs.env_yaw Sample.profile0 Inputs.rates100 500 Sample.rx0
                           Sample.init s false)) as K
  end.
  destruct K as (A & _ & _ & _ & B); [vm_compute; reflexivity|].
  split; [exact A | exact B].
Defined.

(** ** The integrator of the integer controller *)

Lemma shr_div (x n : Z) : 0 <= n -> x >>i n = x / 2 ^ n.
Proof. intros H. unfold CInt.shr. apply Z.shiftr_div_pow2. exact H. Qed.

Lemma in_i32_small (z : Z) : - 2147483648 <= z <= 2147483647 -> CInt.i32 z = z.
Proof.
  intros H. apply i32_id. unfold CInt.in_i32, CInt.INT32_MIN, CInt.INT32_MAX. lia.
Qed.

Lemma constrain_max_min (amt low high : Z) :
  low <= high -> constrain amt low high = Z.max low (Z.min high amt).
Proof.
  intros H. unfold constrain.
  destruct (Z.ltb_spec amt low); [lia|].
  destruct (Z.gtb_spec amt high); lia.
Qed.

Lemma windup_bounds (G : Z) :
  0 <= G < 2 ^ 18 ->
  (CInt.neg G <<i 13) = - (G * 8192) /\ (G <<i 13) = G * 8192.
Proof.
  intros HG. unfold CInt.shl, CInt.neg.
  rewrite (in_i32_small (- G)) by lia.
  rewrite !Z.shiftl_mul_pow2 by lia. change (2 ^ 13) with 8192.
  rewrite !in_i32_small by lia. lia.
Qed.

(** The accumulation of lines 286-290 without wrap-around. *)
Lemma mw_errorGyroI_exact (G : Z) (env : Env) (p : pidProfile_t) (RateError : Z)
  (a : axis_t) (acc : Z) :
  0 <= G < 2 ^ 17 ->
  0 <= cycleTime env <= 65535 ->
  0 <= I8 p (pid_of a) <= 255 ->
  -32767 <= RateError <= 32767 ->
  Z.abs acc <= G * 8192 ->
  mw_errorGyroI G env p RateError a acc
  = Z.max (- (G * 8192))
      (Z.min (G * 8192) (acc + RateError * cycleTime env / 2048 * I8 p (pid_of a))).
Proof.
  intros HG Hc HI HR Hacc. unfold mw_errorGyroI.
  destruct (windup_bounds G ltac:(lia)) as [-> ->].
  rewrite constrain_max_min by lia.
  unfold CInt.add, CInt.mul. rewrite shr_div by lia. change (2 ^ 11) with 2048.
  assert (B1 : -2147385345 <= RateError * cycleTime env <= 2147385345) by nia.
  rewrite (in_i32_small (RateError * cycleTime env)) by lia.
  set (t := RateError * cycleTime env) in *.
  set (q := t / 2048).
  assert (B2 : -1048529 <= q <= 1048528).
  { unfold q. clearbody t. split.
    - apply Z.div_le_lower_bound; lia.
    - apply Z.lt_succ_r. apply Z.div_lt_upper_bound; lia. }
  assert (B3 : -267374895 <= q * I8 p (pid_of a) <= 267374895) by nia.
  rewrite (in_i32_small (q * I8 p (pid_of a))) by lia.
  rewrite in_i32_small by lia. reflexivity.
Qed.

Lemma within_I_bound (G x : Z) : 0 <= G -> within_I G x <-> Z.abs x <= G * 8192.
Proof.
  intros HG. unfold within_I. rewrite Z.shiftl_mul_pow2 by lia.
  change (2 ^ 13) with 8192. reflexivity.
Qed.

Lemma mw_ITerm_bound (G acc : Z) :
  0 <= G -> Z.abs acc <= G * 8192 -> - G <= mw_ITerm acc <= G.
Proof.
  intros HG H. unfold mw_ITerm. rewrite shr_div by lia. change (2 ^ 13) with 8192.
  pose proof (Z.div_mod acc 8192 ltac:(lia)).
  pose proof (Z.mod_pos_bound acc 8192 ltac:(lia)). lia.
Qed.

Section Integrator.

Variable G : Z.
Variable F : Type.
Variable filter : float -> F -> Z -> float -> float * F.
Variable env : Env.
Variable p : pidProfile_t.
Variable r : controlRateConfig_t.
Variable m : Z.
Variable rx : rxConfig_t.

(** X4: with [0 <= GYRO_I_MAX < 2^18], after a cycle of the integer
    controller the I term of every axis lies within
    [[-GYRO_I_MAX, GYRO_I_MAX]], whatever the inputs and the state
    before the cycle. *)
Theorem mw_ITerm_range (st st' : State F) (dz : bool) (a : axis_t) :
  0 <= G < 2 ^ 18 ->
  pidMultiWiiRewrite G filter env p r m rx st = Ok st' dz ->
  - G <= (axisPID_I st').[a] <= G.
Proof.
  intros HG H.
  pose proof (mw_cycle_inv G F filter env p r m rx st st' dz a H) as K.
  cbv zeta in K. destruct K as (KI & _ & KT & _).
  rewrite KT. apply mw_ITerm_bound; [lia|].
  apply within_I_bound; [lia|]. rewrite KI. apply mw_errorGyroI_within. exact HG.
Qed.

(** X5: the accumulation of the integer integrator does not wrap
    around.  With [0 <= GYRO_I_MAX < 2^17], a [uint16_t] cycle time, a
    [uint8_t] I gain, a rate error of the axis within 16 bits and an
    integrator within its limit before the cycle, the integrator after
    the cycle is the mathematical value
    [errorGyroI + floor (RateError * cycleTime / 2048) * I8] clamped to
    [+- GYRO_I_MAX * 8192]. *)
Theorem mw_integrator_exact (st st' : State F) (dz : bool) (a : axis_t) :
  0 <= G < 2 ^ 17 ->
  0 <= cycleTime env <= 65535 ->
  0 <= I8 p (pid_of a) <= 255 ->
  -32767 <= mw_RateError env p r m (mw_horizonLevelStrength env p rx) a <= 32767 ->
  Z.abs (errorGyroI st).[a] <= G * 8192 ->
  pidMultiWiiRewrite G filter env p r m rx st = Ok st' dz ->
  (errorGyroI st').[a]
  = Z.max (- (G * 8192))
      (Z.min (G * 8192)
         ((errorGyroI st).[a]
          + mw_RateError env p r m (mw_horizonLevelStrength env p rx) a * cycleTime env
            / 2048 * I8 p (pid_of a))).
Proof.
  intros HG Hc HI HR Hacc H.
  pose proof (mw_cycle_inv G F filter env p r m rx st st' dz a H) as K.
  cbv zeta in K. destruct K as (KI & _).
  rewrite KI. apply mw_errorGyroI_exact; assumption.
Qed.

(** X6: saturation of the integer integrator.  With
    [0 <= GYRO_I_MAX < 2^17], a [uint16_t] cycle time, a [uint8_t] I
    gain, a rate error of the axis within 16 bits and an integrator
    within its limit before the cycle: when the accumulated value
    [errorGyroI + floor (RateError * cycleTime / 2048) * I8] reaches or
    passes the upper limit
    [GYRO_I_MAX * 8192] the integrator after the cycle is exactly that
    limit and the I term is exactly [GYRO_I_MAX]; when it reaches or
    passes the lower limit they are exactly [- GYRO_I_MAX * 8192] and
    [- GYRO_I_MAX].  In particular an integrator at a limit stays there
    as long as the rate error keeps its sign. *)
Theorem mw_integrator_saturates (st st' : State F) (dz : bool) (a : axis_t) :
  0 <= G < 2 ^ 17 ->
  0 <= cycleTime env <= 65535 ->
  0 <= I8 p (pid_of a) <= 255 ->
  -32767 <= mw_RateError env p r m (mw_horizonLevelStrength env p rx) a <= 32767 ->
  Z.abs (errorGyroI st).[a] <= G * 8192 ->
  pidMultiWiiRewrite G filter env p r m rx st = Ok st' dz ->
  let accumulated :=
    (errorGyroI st).[a]
    + mw_RateError env p r m (mw_horizonLevelStrength env p rx) a * cycleTime env
      / 2048 * I8 p (pid_of a) in
  (G * 8192 <= accumulated ->
   (errorGyroI st').[a] = G * 8192 /\ (axisPID_I st').[a] = G) /\
  (accumulated <= - (G * 8192) ->
   (errorGyroI st').[a] = - (G * 8192) /\ (axisPID_I st').[a] = - G).
Proof.
  intros HG Hc HI HR Hacc H.
  pose proof (mw_cycle_inv G F filter env p r m rx st st' dz a H) as K.
  cbv zeta in *. destruct K as (KI & _ & KT & _).
  rewrite (mw_errorGyroI_exact G env p _ a _ HG Hc HI HR Hacc) in KI.
  rewrite KT. unfold mw_ITerm. rewrite shr_div by lia. change (2 ^ 13) with 8192.
  split; intros Hsat.
  - assert (E : (errorGyroI st').[a] = G * 8192) by lia.
    rewrite E. split; [reflexivity|]. apply Z.div_mul. lia.
  - assert (E : (errorGyroI st').[a] = - (G * 8192)) by lia.
    rewrite E. split; [reflexivity|].
    replace (- (G * 8192)) with ((- G) * 8192) by lia. apply Z.div_mul. lia.
Qed.

End Integrator.

Ltac by_computation :=
  vm_compute;
  repeat match goal with |- _ /\ _ => split end;
  try reflexivity;
  let H := fresh in intros H; discriminate H.

Lemma mw_ITerm_range_witness :
  exists st',
    pidMultiWiiRewrite Sample.GYRO_I_MAX Pt1.filterApplyPt1 Inputs.env_yaw Sample.profile0
      Inputs.rates100 500 Sample.rx0 More.saturated = Ok st' false /\
    - Sample.GYRO_I_MAX <= (axisPID_I st').[YAW] <= Sample.GYRO_I_MAX.
Proof.
  eexists. split; [vm_compute; reflexivity|].
  refine (mw_ITerm_range Sample.GYRO_I_MAX _ Pt1.filterApplyPt1 Inputs.env_yaw
            Sample.profile0 Inputs.rates100 500 Sample.rx0 More.saturated _ false YAW _ _).
  - by_computation.
  - vm_compute. reflexivity.
Defined.

Lemma mw_integrator_exact_witness :
  exists st',
    pidMultiWiiRewrite Sample.GYRO_I_MAX Pt1.filterApplyPt1 Inputs.env_yaw Sample.profile0
      Inputs.rates100 500 Sample.rx0 Sample.init = Ok st' false /\
    (errorGyroI st').[YAW]
    = Z.max (- (256 * 8192)) (Z.min (256 * 8192) (0 + 1984 * 1000 / 2048 * 30)).
Proof.
  eexists. split; [vm_compute; reflexivity|].
  refine (mw_integrator_exact Sample.GYRO_I_MAX _ Pt1.filterApplyPt1 Inputs.env_yaw
            Sample.profile0 Inputs.rates100 500 Sample.rx0 Sample.init _ false YAW
            _ _ _ _ _ _).
  - by_computation.
  - by_computation.
  - by_computation.
  - by_computation.
  - by_computation.
  - vm_compute. reflexivity.
Defined.

Lemma mw_integrator_saturates_witness :
  exists st',
    pidMultiWiiRewrite Sample.GYRO_I_MAX Pt1.filterApplyPt1 Inputs.env_yaw Sample.profile0
      Inputs.rates100 500 Sample.rx0 More.saturated = Ok st' false /\
    (errorGyroI st').[YAW] = 256 * 8192 /\ (axisPID_I st').[YAW] = 256.
Proof.
  eexists. split; [vm_compute; reflexivity|].
  refine (proj1 (mw_integrator_saturates Sample.GYRO_I_MAX _ Pt1.filterApplyPt1
                   Inputs.env_yaw Sample.profile0 Inputs.rates100 500 Sample.rx0
                   More.saturated _ false YAW _ _ _ _ _ _) _).
  - by_computation.
  - by_computation.
  - by_computation.
  - by_computation.
  - by_computation.
  - vm_compute. reflexivity.
  - by_computation.
Defined.

(** ** Steady inputs *)

Lemma sub_self (x : Z) : x -i x = 0.
Proof. unfold CInt.sub. rewrite Z.sub_diag. reflexivity. Qed.

Lemma mw_delta_val_steady (env : Env) (x : Z) : mw_delta_val env x x = 0.
Proof. unfold mw_delta_val. rewrite sub_self, mul_zero_l. reflexivity. Qed.

Lemma mw_DTerm_zero (env : Env) (p : pidProfile_t) (a : axis_t) : mw_DTerm env p 0 a = 0.
Proof. unfold mw_DTerm. rewrite !mul_zero_l. reflexivity. Qed.

Section Steady.

Variable G : Z.
Variable F : Type.
Variable filter : float -> F -> Z -> float -> float * F.
Variable env : Env.
Variable p : pidProfile_t.
Variable r : controlRateConfig_t.
Variable m : Z.
Variable rx : rxConfig_t.

(** X7: the D term of the integer controller dies out under steady
    inputs.  With the D-term filter disabled, after four consecutive
    cycles on the same inputs, from any state, the D term of every axis
    is zero and so are the two persisted deltas. *)
Theorem mw_steady_DTerm (st0 st1 st2 st3 st4 : State F) (d1 d2 d3 d4 : bool)
  (a : axis_t) :
  dterm_cut_hz p = 0 ->
  pidMultiWiiRewrite G filter env p r m rx st0 = Ok st1 d1 ->
  pidMultiWiiRewrite G filter env p r m rx st1 = Ok st2 d2 ->
  pidMultiWiiRewrite G filter env p r m rx st2 = Ok st3 d3 ->
  pidMultiWiiRewrite G filter env p r m rx st3 = Ok st4 d4 ->
  (axisPID_D st4).[a] = 0 /\ (mw_delta1 st4).[a] = 0 /\ (mw_delta2 st4).[a] = 0.
Proof.
  intros Hd H1 H2 H3 H4.
  pose proof (mw_cycle_inv G F filter env p r m rx st0 st1 d1 a H1) as K1.
  pose proof (mw_cycle_inv G F filter env p r m rx st1 st2 d2 a H2) as K2.
  pose proof (mw_cycle_inv G F filter env p r m rx st2 st3 d3 a H3) as K3.
  pose proof (mw_cycle_inv G F filter env p r m rx st3 st4 d4 a H4) as K4.
  cbv zeta in K1, K2, K3, K4.
  destruct K1 as (_ & _ & _ & _ & _ & L1 & _).
  destruct K2 as (_ & _ & _ & _ & _ & L2 & D2 & _).
  destruct K3 as (_ & _ & _ & _ & _ & L3 & D3 & E3 & _).
  destruct K4 as (_ & _ & _ & T4 & _ & _ & D4 & E4 & _).
  rewrite L1, mw_delta_val_steady in D2.
  rewrite L2, mw_delta_val_steady in D3.
  rewrite L3, mw_delta_val_steady in D4, T4.
  rewrite D2 in E3. rewrite D3 in E4. rewrite D3, E3 in T4.
  unfold mw_deltaSum in T4. rewrite Hd in T4. cbn [nonzero Z.eqb negb fst] in T4.
  change (0 +i 0 +i 0) with 0 in T4. rewrite mw_DTerm_zero in T4.
  auto.
Qed.

(** X14: rest is a fixed point of the integer controller.  With both
    filters disabled, [0 <= GYRO_I_MAX < 2^18], and on an axis whose
    rate error is zero, whose integrator is zero and whose derivative
    history ([lastError], [delta1], [delta2]) is zero, a cycle leaves
    the output of the axis and its three terms at zero and the
    integrator and the history at zero. *)
Theorem mw_rest_is_fixed (st st' : State F) (dz : bool) (a : axis_t) :
  0 <= G < 2 ^ 18 ->
  pterm_cut_hz p = 0 ->
  dterm_cut_hz p = 0 ->
  mw_RateError env p r m (mw_horizonLevelStrength env p rx) a = 0 ->
  (errorGyroI st).[a] = 0 ->
  (mw_lastError st).[a] = 0 ->
  (mw_delta1 st).[a] = 0 ->
  (mw_delta2 st).[a] = 0 ->
  pidMultiWiiRewrite G filter env p r m rx st = Ok st' dz ->
  (axisPID st').[a] = 0 /\
  (axisPID_P st').[a] = 0 /\ (axisPID_I st').[a] = 0 /\ (axisPID_D st').[a] = 0 /\
  (errorGyroI st').[a] = 0 /\
  (mw_lastError st').[a] = 0 /\ (mw_delta1 st').[a] = 0 /\ (mw_delta2 st').[a] = 0.
Proof.
  intros HG Hp Hd HR HI HL H1 H2 H.
  pose proof (mw_cycle_inv G F filter env p r m rx st st' dz a H) as K.
  cbv zeta in K. rewrite HR, HI, HL, H1, H2 in K.
  rewrite mw_delta_val_steady, (mw_errorGyroI_zero G env p a HG) in K.
  unfold mw_PTerm, mw_deltaSum in K. rewrite Hp, Hd in K.
  cbn [nonzero Z.eqb negb fst snd] in K.
  rewrite !mul_zero_l in K. change (0 +i 0 +i 0) with 0 in K.
  rewrite mw_DTerm_zero in K.
  destruct K as (KI & KP & KT & KD & KO & KL & K1 & K2 & _).
  rewrite KI in KT. rewrite KP, KT, KD in KO.
  split_all; assumption.
Qed.

End Steady.

Lemma mw_steady_DTerm_witness :
  exists st1 st2 st3 st4,
    pidMultiWiiRewrite Sample.GYRO_I_MAX Pt1.filterApplyPt1 Inputs.env_gyro Sample.profile0
      Sample.rates0 500 Sample.rx0 Sample.init = Ok st1 false /\
    pidMultiWiiRewrite Sample.GYRO_I_MAX Pt1.filterApplyPt1 Inputs.env_gyro Sample.profile0
      Sample.rates0 500 Sample.rx0 st1 = Ok st2 false /\
    pidMultiWiiRewrite Sample.GYRO_I_MAX Pt1.filterApplyPt1 Inputs.env_gyro Sample.profile0
      Sample.rates0 500 Sample.rx0 st2 = Ok st3 false /\
    pidMultiWiiRewrite Sample.GYRO_I_MAX Pt1.filterApplyPt1 Inputs.env_gyro Sample.profile0
      Sample.rates0 500 Sample.rx0 st3 = Ok st4 false /\
    (axisPID_D st1).[ROLL] = -149 /\ (axisPID_D st4).[ROLL] = 0.
Proof.
  do 4 eexists.
  split; [vm_compute; reflexivity|].
  split; [vm_compute; reflexivity|].
  split; [vm_compute; reflexivity|].
  split; [vm_compute; reflexivity|].
  split; [reflexivity|].
  refine (proj1 (mw_steady_DTerm Sample.GYRO_I_MAX _ Pt1.filterApplyPt1 Inputs.env_gyro
                   Sample.profile0 Sample.rates0 500 Sample.rx0 Sample.init _ _ _ _
                   false false false false ROLL _ _ _ _ _)).
  - reflexivity.
  - vm_compute. reflexivity.
  - vm_compute. reflexivity.
  - vm_compute. reflexivity.
  - vm_compute. reflexivity.
Defined.

Lemma mw_rest_is_fixed_witness :
  exists st',
    pidMultiWiiRewrite Sample.GYRO_I_MAX Pt1.filterApplyPt1 Inputs.env_gyro Sample.profile0
      Sample.rates0 500 Sample.rx0 Sample.init = Ok st' false /\
    (axisPID st').[PITCH] = 0 /\ (errorGyroI st').[PITCH] = 0.
Proof.
  eexists. split; [vm_compute; reflexivity|].
  match goal with
  | |- (axisPID ?s).[_] = _ /\ _ =>
      pose proof (mw_rest_is_fixed Sample.GYRO_I_MAX _ Pt1.filterApplyPt1 Inputs.env_gyro
                    Sample.profile0 Sample.rates0 500 Sample.rx0 Sample.init s false PITCH)
        as K
  end.
  destruct K as (A & _ & _ & _ & B & _).
  - by_computation.
  - reflexivity.
  - reflexivity.
  - vm_compute. reflexivity.
  - reflexivity.
  - reflexivity.
  - reflexivity.
  - reflexivity.
  - vm_compute. reflexivity.
  - split; [exact A | exact B].
Defined.

(** ** The selected controller over a run *)

Lemma run_op_controller (G : Z) (F : Type)
  (filter : float -> F -> Z -> float -> float * F) (o : op) (st st' : State F)
  (dz : bool) :
  run_op G filter o st = Ok st' dz ->
  pid_controller st' = selected [o] (pid_controller st).
Proof.
  destruct o as [env p r m rx | | type]; cbn [run_op selected]; intros H.
  - unfold pid_controller_call in H. destruct (pid_controller st) eqn:E.
    + rewrite (mw_cycle_controller _ _ _ _ _ _ _ _ _ _ _ H). exact E.
    + rewrite (lux_cycle_controller _ _ _ _ _ _ _ _ _ _ H). exact E.
  - injection H as <- _. reflexivity.
  - injection H as <- _. destruct type; reflexivity.
Qed.

(** X8: only [pidSetController] changes which controller runs.  After
    any sequence of cycles, resets and selections that completes, the
    selected controller is the one of the last selection (an argument
    other than [PID_CONTROLLER_LUX_FLOAT] selecting the integer
    controller), or the one selected before the sequence when it
    contains no selection: no cycle and no reset changes it. *)
Theorem run_selected (G : Z) (F : Type)
  (filter : float -> F -> Z -> float -> float * F) (ops : list op) :
  forall (st st' : State F) (dz : bool),
    run G filter ops st = Ok st' dz ->
    pid_controller st' = selected ops (pid_controller st).
Proof.
  induction ops as [|o ops IH]; intros st st' dz H; cbn [run] in H.
  - injection H as <- _. reflexivity.
  - apply bind_Ok in H as (s1 & d1 & d2 & H1 & H2 & _).
    rewrite (IH _ _ _ H2), (run_op_controller _ _ _ _ _ _ _ H1).
    destruct o; reflexivity.
Qed.

Lemma run_selected_witness :
  exists st',
    run Sample.GYRO_I_MAX Pt1.filterApplyPt1 Runs.mixed Sample.init = Ok st' false /\
    pid_controller st' = fn_pidMultiWiiRewrite.
Proof.
  eexists. split; [vm_compute; reflexivity|].
  refine (run_selected Sample.GYRO_I_MAX _ Pt1.filterApplyPt1 Runs.mixed Sample.init _ false _).
  vm_compute. reflexivity.
Defined.

(** ** Range of the horizon strength *)

(** X9: the horizon strength stays in its range for every stick
    position, every sensitivity and every flight mode: the integer
    controller's lies within [[0, 100]]; the float controller's is
    computed without a division by zero and is neither below 0.0 nor
    above 1.0. *)
Theorem horizon_strength_range (env : Env) (p : pidProfile_t) (rx : rxConfig_t) :
  0 <= mw_horizonLevelStrength env p rx <= 100 /\
  exists h,
    lux_horizonLevelStrength env p rx = Ok h false /\
    (h <f F32.zero) = false /\ (F32.one <f h) = false.
Proof.
  split.
  - unfold mw_horizonLevelStrength.
    destruct (FLIGHT_MODE env HORIZON_MODE); [|lia].
    match goal with |- _ <= CInt.i8 (constrain ?x 0 100) <= _ =>
      pose proof (constrain_range x 0 100 ltac:(lia)) as B;
      assert (E : CInt.i8 (constrain x 0 100) = constrain x 0 100)
        by (apply (wrap_id 8); [lia | change (2 ^ (8 - 1)) with 128; lia])
    end.
    rewrite E. exact B.
  - unfold lux_horizonLevelStrength, idiv.
    destruct (FLIGHT_MODE env HORIZON_MODE).
    + destruct (H_sensitivity p =? 0).
      * exists F32.zero. repeat split.
      * cbn [bind ret orb]. eexists. split; [reflexivity|].
        apply constrainf_range. reflexivity.
    + exists F32.one. repeat split.
Qed.

(** ** Desired rates *)

Lemma shr_mono (x y n : Z) : 0 <= n -> x <= y -> x >>i n <= y >>i n.
Proof.
  intros Hn H. rewrite !shr_div by exact Hn.
  apply Z.div_le_mono; [apply Z.pow_pos_nonneg; lia | exact H].
Qed.

(** X10: the desired yaw rate of the integer controller follows the
    stick.  For a [uint8_t] rate setting and [int16_t] stick commands
    it is zero at centre stick and monotone in the stick command, so it
    never has the sign opposite to the command. *)
Theorem mw_yaw_rate_monotone (env1 env2 : Env) (p1 p2 : pidProfile_t)
  (r : controlRateConfig_t) (m1 m2 h1 h2 : Z) :
  0 <= (rates r).[YAW] <= 255 ->
  -32768 <= (rcCommand env1).[YAW] ->
  (rcCommand env1).[YAW] <= (rcCommand env2).[YAW] ->
  (rcCommand env2).[YAW] <= 32767 ->
  mw_AngleRateTmp env1 p1 r m1 h1 FD_YAW <= mw_AngleRateTmp env2 p2 r m2 h2 FD_YAW /\
  ((rcCommand env1).[YAW] = 0 -> mw_AngleRateTmp env1 p1 r m1 h1 FD_YAW = 0) /\
  ((rcCommand env1).[YAW] <= 0 -> mw_AngleRateTmp env1 p1 r m1 h1 FD_YAW <= 0) /\
  (0 <= (rcCommand env2).[YAW] -> 0 <= mw_AngleRateTmp env2 p2 r m2 h2 FD_YAW).
Proof.
  intros Hr H1 H12 H2. unfold mw_AngleRateTmp. cbn [axis_eqb].
  set (rate := (rates r).[YAW]) in *.
  set (c1 := (rcCommand env1).[YAW]) in *.
  set (c2 := (rcCommand env2).[YAW]) in *.
  unfold CInt.add, CInt.mul.
  rewrite (in_i32_small (rate + 27)) by lia.
  rewrite (in_i32_small ((rate + 27) * c1)) by nia.
  rewrite (in_i32_small ((rate + 27) * c2)) by nia.
  split_all.
  - apply shr_mono; [lia | nia].
  - intros ->. rewrite Z.mul_0_r. reflexivity.
  - intros Hc. exact (shr_mono ((rate + 27) * c1) 0 5 ltac:(lia) ltac:(nia)).
  - intros Hc. exact (shr_mono 0 ((rate + 27) * c2) 5 ltac:(lia) ltac:(nia)).
Qed.

Lemma mw_yaw_rate_monotone_witness :
  mw_AngleRateTmp Sample.env0 Sample.profile0 Inputs.rates100 500 100 FD_YAW
  <= mw_AngleRateTmp Inputs.env_yaw Sample.profile0 Inputs.rates100 500 100 FD_YAW.
Proof.
  refine (proj1 (mw_yaw_rate_monotone Sample.env0 Inputs.env_yaw Sample.profile0
                   Sample.profile0 Inputs.rates100 500 500 100 100 _ _ _ _)).
  - by_computation.
  - by_computation.
  - by_computation.
  - by_computation.
Defined.

(** X11: in angle mode the stick command is limited to the maximum
    inclination before the angle error is formed.  On roll and pitch,
    for a [uint16_t] maximum inclination and an [int16_t] command: in
    the integer controller a command with [2 * rcCommand] at or beyond
    the maximum gives the desired rate of the maximum inclination
    itself, [((max - attitude) * P8[PIDLEVEL]) >> 4] (and symmetrically
    below [- max]); in the float controller the same holds from
    [rcCommand] at or beyond the maximum, with
    [(max - attitude) / 10 * A_level]. *)
Theorem angle_mode_limits_stick (env : Env) (p : pidProfile_t)
  (r : controlRateConfig_t) (m h : Z) (hf : float) (a : axis_t) :
  a <> FD_YAW ->
  FLIGHT_MODE env ANGLE_MODE = true ->
  0 <= m <= 65535 ->
  -32768 <= (rcCommand env).[a] <= 32767 ->
  (m <= 2 * (rcCommand env).[a] ->
   mw_AngleRateTmp env p r m h a
   = ((m -i (attitude_raw env).[a]) *i P8 p PIDLEVEL) >>i 4) /\
  (2 * (rcCommand env).[a] <= - m ->
   mw_AngleRateTmp env p r m h a
   = ((- m -i (attitude_raw env).[a]) *i P8 p PIDLEVEL) >>i 4) /\
  (m <= (rcCommand env).[a] ->
   lux_AngleRate env p r m hf a
   = F32.of_Z (m -i (attitude_raw env).[a]) /f F32.f10 *f A_level p) /\
  ((rcCommand env).[a] <= - m ->
   lux_AngleRate env p r m hf a
   = F32.of_Z (- m -i (attitude_raw env).[a]) /f F32.f10 *f A_level p).
Proof.
  intros Ha Hmode Hm Hc. unfold mw_AngleRateTmp, lux_AngleRate.
  assert (E : axis_eqb a FD_YAW = false) by (destruct a; [reflexivity..|congruence]).
  rewrite E, Hmode. cbn [negb].
  unfold CInt.neg. rewrite (in_i32_small (- m)) by lia.
  assert (E2 : 2 *i (rcCommand env).[a] = 2 * (rcCommand env).[a])
    by (unfold CInt.mul; apply in_i32_small; lia).
  rewrite !E2. unfold constrain. split_all; intros Hs.
  - destruct (Z.ltb_spec (2 * (rcCommand env).[a]) (- m)); [lia|].
    destruct (Z.gtb_spec (2 * (rcCommand env).[a]) m); [reflexivity|].
    replace (2 * (rcCommand env).[a]) with m by lia. reflexivity.
  - destruct (Z.ltb_spec (2 * (rcCommand env).[a]) (- m)); [reflexivity|].
    destruct (Z.gtb_spec (2 * (rcCommand env).[a]) m); [lia|].
    replace (2 * (rcCommand env).[a]) with (- m) by lia. reflexivity.
  - destruct (Z.ltb_spec (rcCommand env).[a] (- m)); [lia|].
    destruct (Z.gtb_spec (rcCommand env).[a] m); [reflexivity|].
    replace ((rcCommand env).[a]) with m by lia. reflexivity.
  - destruct (Z.ltb_spec (rcCommand env).[a] (- m)); [reflexivity|].
    destruct (Z.gtb_spec (rcCommand env).[a] m); [lia|].
    replace ((rcCommand env).[a]) with (- m) by lia. reflexivity.
Qed.

Lemma angle_mode_limits_stick_witness :
  mw_AngleRateTmp (More.env_angle (Arr3 400 0 0) (Arr3 100 0 0)) Sample.profile0
    Sample.rates0 500 100 FD_ROLL
  = mw_AngleRateTmp (More.env_angle (Arr3 250 0 0) (Arr3 100 0 0)) Sample.profile0
      Sample.rates0 500 100 FD_ROLL.
Proof.
  rewrite (proj1 (angle_mode_limits_stick (More.env_angle (Arr3 400 0 0) (Arr3 100 0 0))
                    Sample.profile0 Sample.rates0 500 100 F32.one FD_ROLL
                    ltac:(discriminate) eq_refl ltac:(by_computation)
                    ltac:(by_computation)) ltac:(by_computation)).
  rewrite (proj1 (angle_mode_limits_stick (More.env_angle (Arr3 250 0 0) (Arr3 100 0 0))
                    Sample.profile0 Sample.rates0 500 100 F32.one FD_ROLL
                    ltac:(discriminate) eq_refl ltac:(by_computation)
                    ltac:(by_computation)) ltac:(by_computation)).
  reflexivity.
Defined.

(** ** Weight factor and gains of the integer controller *)

Lemma shr_in_i32 (x n : Z) : 0 <= n -> CInt.in_i32 x -> CInt.in_i32 (x >>i n).
Proof.
  unfold CInt.in_i32, CInt.INT32_MIN, CInt.INT32_MAX. intros Hn Hx.
  rewrite shr_div by exact Hn.
  assert (Hp : 0 < 2 ^ n) by (apply Z.pow_pos_nonneg; lia).
  pose proof (Z.div_mod x (2 ^ n) ltac:(lia)) as Hdm.
  pose proof (Z.mod_pos_bound x (2 ^ n) Hp) as Hmod.
  set (q := x / 2 ^ n) in *. set (P := 2 ^ n) in *. set (t := x mod P) in *.
  clearbody q P t. split; nia.
Qed.

Lemma i32_in_i32 (z : Z) : CInt.in_i32 (CInt.i32 z).
Proof.
  unfold CInt.in_i32, CInt.INT32_MIN, CInt.INT32_MAX, CInt.i32.
  pose proof (wrap_range 32 z ltac:(lia)) as H.
  change (2 ^ (32 - 1)) with (2 ^ 31) in H. exact H.
Qed.

Lemma add_zero_r (x : Z) : CInt.in_i32 x -> x +i 0 = x.
Proof. intros H. unfold CInt.add. rewrite Z.add_0_r. apply i32_id. exact H. Qed.

Lemma add_zero_l (x : Z) : CInt.in_i32 x -> 0 +i x = x.
Proof. intros H. unfold CInt.add. rewrite Z.add_0_l. apply i32_id. exact H. Qed.

Section Gains.

Variable G : Z.
Variable F : Type.
Variable filter : float -> F -> Z -> float -> float * F.
Variable env : Env.
Variable p : pidProfile_t.
Variable r : controlRateConfig_t.
Variable m : Z.
Variable rx : rxConfig_t.

(** X12: the weight factor scales the P and D terms and not the I term.
    With the P-term filter disabled and [0 <= GYRO_I_MAX < 2^15], on an
    axis whose [PIDweight] is zero a cycle of the integer controller
    gives a P term and a D term of zero, and the output of the axis is
    the I term alone. *)
Theorem mw_zero_weight (st st' : State F) (dz : bool) (a : axis_t) :
  0 <= G < 2 ^ 15 ->
  pterm_cut_hz p = 0 ->
  (PIDweight env).[a] = 0 ->
  pidMultiWiiRewrite G filter env p r m rx st = Ok st' dz ->
  (axisPID_P st').[a] = 0 /\ (axisPID_D st').[a] = 0 /\
  (axisPID st').[a] = (axisPID_I st').[a].
Proof.
  intros HG Hp Hw H.
  assert (HI : - G <= (axisPID_I st').[a] <= G).
  { pose proof (mw_cycle_inv G F filter env p r m rx st st' dz a H) as K.
    cbv zeta in K. destruct K as (KI & _ & KT & _).
    rewrite KT. apply mw_ITerm_bound; [lia|].
    apply within_I_bound; [lia|]. rewrite KI. apply mw_errorGyroI_within. lia. }
  pose proof (mw_cycle_inv G F filter env p r m rx st st' dz a H) as K.
  cbv zeta in K. destruct K as (_ & KP & _ & KD & KO & _).
  assert (EP : (axisPID_P st').[a] = 0).
  { rewrite KP. unfold mw_PTerm. rewrite Hp, Hw, mul_zero_r. reflexivity. }
  assert (ED : (axisPID_D st').[a] = 0).
  { rewrite KD. unfold mw_DTerm. rewrite Hw, mul_zero_r. reflexivity. }
  split_all; [exact EP | exact ED |].
  rewrite KO, EP, ED.
  rewrite add_zero_l, add_zero_r
    by (unfold CInt.in_i32, CInt.INT32_MIN, CInt.INT32_MAX; lia).
  apply i16_id. unfold CInt.in_i16. lia.
Qed.

(** X16: an I gain of zero freezes the integer integrator.  With
    [0 <= GYRO_I_MAX < 2^18], on an axis whose [I8] is zero and whose
    integrator is within its limit, a cycle leaves the integrator of
    the axis as it is, whatever the rate error: the gain stops the
    accumulation and does not clear what was accumulated. *)
Theorem mw_zero_I_gain (st st' : State F) (dz : bool) (a : axis_t) :
  0 <= G < 2 ^ 18 ->
  I8 p (pid_of a) = 0 ->
  within_I G (errorGyroI st).[a] ->
  pidMultiWiiRewrite G filter env p r m rx st = Ok st' dz ->
  (errorGyroI st').[a] = (errorGyroI st).[a].
Proof.
  intros HG HI Hacc H.
  pose proof (mw_cycle_inv G F filter env p r m rx st st' dz a H) as K.
  cbv zeta in K. destruct K as (KI & _).
  apply within_I_bound in Hacc; [|lia].
  rewrite KI. unfold mw_errorGyroI. rewrite HI, mul_zero_r.
  destruct (windup_bounds G HG) as [-> ->].
  rewrite add_zero_r
    by (unfold CInt.in_i32, CInt.INT32_MIN, CInt.INT32_MAX; lia).
  apply constrain_id. lia.
Qed.

Lemma mw_horizon_full_stick :
  FLIGHT_MODE env HORIZON_MODE = true ->
  mostDeflectedPos env rx = 500 ->
  80 <= D8 p PIDLEVEL <= 255 ->
  mw_horizonLevelStrength env p rx = 0.
Proof.
  intros Hmode Hs Hd. unfold mw_horizonLevelStrength. rewrite Hmode, Hs.
  apply Z.eqb_eq. by_range (D8 p PIDLEVEL) 80 176%nat.
Qed.

(** X13: at full stick the horizon mode of the integer controller is
    the rate mode.  In horizon mode without angle mode, at the maximum
    stick deflection (500) and for a sensitivity [D8[PIDLEVEL]] from 80
    to 255, the desired rate of roll and pitch is
    [((rate + 27) * rcCommand) >> 4], as in rate mode: the attitude
    estimate and the level gain have no part in it. *)
Theorem mw_horizon_full_stick_is_rate (a : axis_t) :
  a <> FD_YAW ->
  FLIGHT_MODE env ANGLE_MODE = false ->
  FLIGHT_MODE env HORIZON_MODE = true ->
  mostDeflectedPos env rx = 500 ->
  80 <= D8 p PIDLEVEL <= 255 ->
  mw_AngleRateTmp env p r m (mw_horizonLevelStrength env p rx) a
  = (((rates r).[a] +i 27) *i (rcCommand env).[a]) >>i 4.
Proof.
  intros Ha Hangle Hmode Hs Hd.
  rewrite (mw_horizon_full_stick Hmode Hs Hd).
  unfold mw_AngleRateTmp.
  assert (E : axis_eqb a FD_YAW = false) by (destruct a; [reflexivity..|congruence]).
  rewrite E, Hangle, Hmode. cbn [negb].
  rewrite mul_zero_r. change ((0 /i 100) >>i 4) with 0.
  apply add_zero_r. apply shr_in_i32; [lia|]. apply i32_in_i32.
Qed.

End Gains.

Lemma mw_zero_weight_witness :
  exists st',
    pidMultiWiiRewrite Sample.GYRO_I_MAX Pt1.filterApplyPt1 More.env_no_weight
      Sample.profile0 Sample.rates0 500 Sample.rx0 Sample.init = Ok st' false /\
    (axisPID_P st').[ROLL] = 0 /\ (axisPID_D st').[ROLL] = 0 /\
    (axisPID st').[ROLL] = (axisPID_I st').[ROLL].
Proof.
  eexists. split; [vm_compute; reflexivity|].
  refine (mw_zero_weight Sample.GYRO_I_MAX _ Pt1.filterApplyPt1 More.env_no_weight
            Sample.profile0 Sample.rates0 500 Sample.rx0 Sample.init _ false ROLL
            _ _ _ _).
  - by_computation.
  - reflexivity.
  - reflexivity.
  - vm_compute. reflexivity.
Defined.

Lemma mw_zero_I_gain_witness :
  exists st',
    pidMultiWiiRewrite Sample.GYRO_I_MAX Pt1.filterApplyPt1 Inputs.env_yaw
      More.profile_no_I Inputs.rates100 500 Sample.rx0 More.saturated = Ok st' false /\
    (errorGyroI st').[YAW] = (errorGyroI More.saturated).[YAW].
Proof.
  eexists. split; [vm_compute; reflexivity|].
  refine (mw_zero_I_gain Sample.GYRO_I_MAX _ Pt1.filterApplyPt1 Inputs.env_yaw
            More.profile_no_I Inputs.rates100 500 Sample.rx0 More.saturated _ false YAW
            _ _ _ _).
  - by_computation.
  - reflexivity.
  - by_computation.
  - vm_compute. reflexivity.
Defined.

Lemma mw_horizon_full_stick_is_rate_witness :
  mw_AngleRateTmp (Inputs.env_horizon 500) (Inputs.profile_sensitivity 100) Inputs.rates100
    500 (mw_horizonLevelStrength (Inputs.env_horizon 500) (Inputs.profile_sensitivity 100)
           Sample.rx0) FD_ROLL
  = (((rates Inputs.rates100).[ROLL] +i 27) *i (rcCommand (Inputs.env_horizon 500)).[ROLL])
    >>i 4.
Proof.
  refine (mw_horizon_full_stick_is_rate (Inputs.env_horizon 500)
            (Inputs.profile_sensitivity 100) Inputs.rates100 500 Sample.rx0 FD_ROLL
            _ _ _ _ _).
  - discriminate.
  - reflexivity.
  - reflexivity.
  - reflexivity.
  - by_computation.
Defined.

(** ** Steady inputs of the float controller *)

Lemma fsub_self (x : float) : F32.is_finite x = true -> F32.is_zero (x -f x) = true.
Proof.
  destruct x as [s | s | | s mx ex]; intros H; try discriminate H.
  - destruct s; reflexivity.
  - unfold F32.sub, SFsub. rewrite Z.sub_diag. reflexivity.
Qed.

Lemma fmul_zero_l (z x : float) :
  F32.is_zero z = true -> F32.is_finite x = true -> F32.is_zero (z *f x) = true.
Proof.
  destruct z; intros Hz; try discriminate Hz.
  destruct x; intros Hx; try discriminate Hx; reflexivity.
Qed.

Lemma fadd_zero (x y : float) :
  F32.is_zero x = true -> F32.is_zero y = true -> F32.is_zero (x +f y) = true.
Proof.
  destruct x as [sx| | |]; intros Hx; try discriminate Hx.
  destruct y as [sy| | |]; intros Hy; try discriminate Hy.
  destruct sx, sy; reflexivity.
Qed.

Lemma fdiv_zero_l (z : float) (s : bool) (my : positive) (ey : Z) :
  F32.is_zero z = true -> F32.is_zero (z /f S754_finite s my ey) = true.
Proof. destruct z; intros Hz; try discriminate Hz. reflexivity. Qed.

Lemma of_Z_u8_finite (w : Z) : 0 <= w <= 255 -> F32.is_finite (F32.of_Z w) = true.
Proof. intros H. by_range w 0 256%nat. Qed.

Lemma lux_DTerm_zero (env : Env) (p : pidProfile_t) (deltaSum : float) (a : axis_t) :
  F32.is_zero deltaSum = true ->
  F32.is_finite (D_f p).[a] = true ->
  0 <= (PIDweight env).[a] <= 255 ->
  F32.is_zero (lux_DTerm env p deltaSum a) = true.
Proof.
  intros Hz HD Hw. unfold lux_DTerm.
  assert (E : F32.is_zero
                ((deltaSum /f F32.f3) *f (D_f p).[a] *f F32.of_Z (PIDweight env).[a]
                 /f F32.f100) = true).
  { apply fdiv_zero_l. apply fmul_zero_l; [|apply of_Z_u8_finite; exact Hw].
    apply fmul_zero_l; [|exact HD]. apply fdiv_zero_l. exact Hz. }
  destruct ((deltaSum /f F32.f3) *f (D_f p).[a] *f F32.of_Z (PIDweight env).[a]
            /f F32.f100) as [s | | |]; try discriminate E.
  reflexivity.
Qed.

Lemma to_i32_zero (z : float) : F32.is_zero z = true -> F32.to_i32 z = 0.
Proof. destruct z; intros H; try discriminate H. reflexivity. Qed.

Section SteadyLux.

Variable F : Type.
Variable filter : float -> F -> Z -> float -> float * F.
Variable env : Env.
Variable p : pidProfile_t.
Variable r : controlRateConfig_t.
Variable m : Z.
Variable rx : rxConfig_t.

Lemma lux_delta_val_steady (x : float) :
  F32.is_finite x = true ->
  F32.is_finite (F32.one /f dT env) = true ->
  F32.is_zero (lux_delta_val env x x) = true.
Proof.
  intros Hx HT. unfold lux_delta_val.
  apply fmul_zero_l; [apply fsub_self; exact Hx | exact HT].
Qed.

(** X15: the D term of the float controller dies out under steady
    inputs.  With the D-term filter disabled, a finite rate error on the
    axis, a finite [1.0f / dT], a finite D gain and a [uint8_t] weight
    factor, after four consecutive cycles on the same inputs, from any
    state, the D term of the axis is zero and so are the two persisted
    deltas. *)
Theorem lux_steady_DTerm (st0 st1 st2 st3 st4 : State F) (d1 d2 d3 d4 : bool)
  (a : axis_t) (h : float) :
  dterm_cut_hz p = 0 ->
  lux_horizonLevelStrength env p rx = Ok h false ->
  F32.is_finite (lux_RateError env p r m h a) = true ->
  F32.is_finite (F32.one /f dT env) = true ->
  F32.is_finite (D_f p).[a] = true ->
  0 <= (PIDweight env).[a] <= 255 ->
  pidLuxFloat filter env p r m rx st0 = Ok st1 d1 ->
  pidLuxFloat filter env p r m rx st1 = Ok st2 d2 ->
  pidLuxFloat filter env p r m rx st2 = Ok st3 d3 ->
  pidLuxFloat filter env p r m rx st3 = Ok st4 d4 ->
  (axisPID_D st4).[a] = 0 /\
  F32.is_zero (lux_delta1 st4).[a] = true /\ F32.is_zero (lux_delta2 st4).[a] = true.
Proof.
  intros Hd Hh HR HT HD Hw H1 H2 H3 H4.
  destruct (lux_cycle_inv F filter env p r m rx st0 st1 d1 a H1) as (h1 & E1 & K1).
  destruct (lux_cycle_inv F filter env p r m rx st1 st2 d2 a H2) as (h2 & E2 & K2).
  destruct (lux_cycle_inv F filter env p r m rx st2 st3 d3 a H3) as (h3 & E3 & K3).
  destruct (lux_cycle_inv F filter env p r m rx st3 st4 d4 a H4) as (h4 & E4 & K4).
  rewrite Hh in E1, E2, E3, E4.
  injection E1 as <-. injection E2 as <-. injection E3 as <-. injection E4 as <-.
  cbv zeta in K1, K2, K3, K4.
  destruct K1 as (_ & _ & _ & _ & _ & L1 & _).
  destruct K2 as (_ & _ & _ & _ & _ & L2 & D2 & _).
  destruct K3 as (_ & _ & _ & _ & _ & L3 & D3 & S3 & _).
  destruct K4 as (_ & _ & _ & T4 & _ & _ & D4 & S4 & _).
  pose proof (lux_delta_val_steady _ HR HT) as Z0.
  rewrite L1 in D2. rewrite L2 in D3. rewrite L3 in D4, T4.
  assert (Z2 : F32.is_zero (lux_delta1 st2).[a] = true) by (rewrite D2; exact Z0).
  assert (Z3 : F32.is_zero (lux_delta1 st3).[a] = true) by (rewrite D3; exact Z0).
  assert (Z3' : F32.is_zero (lux_delta2 st3).[a] = true) by (rewrite S3; exact Z2).
  split_all.
  - rewrite T4. apply to_i32_zero. apply lux_DTerm_zero; [|exact HD|exact Hw].
    unfold lux_deltaSum. rewrite Hd. cbn [nonzero Z.eqb negb fst].
    apply fadd_zero; [apply fadd_zero; assumption | exact Z0].
  - rewrite D4. exact Z0.
  - rewrite S4. exact Z3.
Qed.

End SteadyLux.

Lemma lux_steady_DTerm_witness :
  exists st1 st2 st3 st4,
    pidLuxFloat Pt1.filterApplyPt1 Inputs.env_gyro3 Inputs.profile_half_D Sample.rates0 500
      Sample.rx0 Sample.init = Ok st1 false /\
    pidLuxFloat Pt1.filterApplyPt1 Inputs.env_gyro3 Inputs.profile_half_D Sample.rates0 500
      Sample.rx0 st1 = Ok st2 false /\
    pidLuxFloat Pt1.filterApplyPt1 Inputs.env_gyro3 Inputs.profile_half_D Sample.rates0 500
      Sample.rx0 st2 = Ok st3 false /\
    pidLuxFloat Pt1.filterApplyPt1 Inputs.env_gyro3 Inputs.profile_half_D Sample.rates0 500
      Sample.rx0 st3 = Ok st4 false /\
    (axisPID_D st1).[ROLL] = 300 /\ (axisPID_D st4).[ROLL] = 0.
Proof.
  do 4 eexists.
  split; [vm_compute; reflexivity|].
  split; [vm_compute; reflexivity|].
  split; [vm_compute; reflexivity|].
  split; [vm_compute; reflexivity|].
  split; [reflexivity|].
  refine (proj1 (lux_steady_DTerm _ Pt1.filterApplyPt1 Inputs.env_gyro3
                   Inputs.profile_half_D Sample.rates0 500 Sample.rx0 Sample.init _ _ _ _
                   false false false false ROLL F32.one _ _ _ _ _ _ _ _ _ _)).
  - reflexivity.
  - reflexivity.
  - vm_compute. reflexivity.
  - vm_compute. reflexivity.
  - reflexivity.
  - by_computation.
  - vm_compute. reflexivity.
  - vm_compute. reflexivity.
  - vm_compute. reflexivity.
  - vm_compute. reflexivity.
Defined.

Lemma fsub_zero (x y : float) :
  F32.is_zero x = true -> F32.is_zero y = true -> F32.is_zero (x -f y) = true.
Proof.
  destruct x as [sx| | |]; intros Hx; try discriminate Hx.
  destruct y as [sy| | |]; intros Hy; try discriminate Hy.
  destruct sx, sy; reflexivity.
Qed.

Lemma lrintf_zero (z : float) : F32.is_zero z = true -> F32.lrintf z = 0.
Proof. destruct z; intros H; try discriminate H. reflexivity. Qed.

Section RestLux.

Variable F : Type.
Variable filter : float -> F -> Z -> float -> float * F.
Variable env : Env.
Variable p : pidProfile_t.
Variable r : controlRateConfig_t.
Variable m : Z.
Variable rx : rxConfig_t.

(** X17: rest is a fixed point of the float controller.  With both
    filters disabled, finite [dT], [1.0f / dT] and gains of the axis and
    a [uint8_t] weight factor, on an axis whose rate error is zero,
    whose integrator is [0.0f] and whose derivative history
    ([lastError], [delta1], [delta2]) is zero, a cycle leaves the
    output of the axis and its three recorded terms at zero, the
    integrator at [0.0f] and the history at zero. *)
Theorem lux_rest_is_fixed (st st' : State F) (dz : bool) (a : axis_t) (h : float) :
  pterm_cut_hz p = 0 ->
  dterm_cut_hz p = 0 ->
  lux_horizonLevelStrength env p rx = Ok h false ->
  F32.is_zero (lux_RateError env p r m h a) = true ->
  F32.is_finite (dT env) = true ->
  F32.is_finite (F32.one /f dT env) = true ->
  F32.is_finite (P_f p).[a] = true ->
  F32.is_finite (I_f p).[a] = true ->
  F32.is_finite (D_f p).[a] = true ->
  0 <= (PIDweight env).[a] <= 255 ->
  (errorGyroIf st).[a] = F32.zero ->
  F32.is_zero (lux_lastError st).[a] = true ->
  F32.is_zero (lux_delta1 st).[a] = true ->
  F32.is_zero (lux_delta2 st).[a] = true ->
  pidLuxFloat filter env p r m rx st = Ok st' dz ->
  (axisPID st').[a] = 0 /\
  (axisPID_P st').[a] = 0 /\ (axisPID_I st').[a] = 0 /\ (axisPID_D st').[a] = 0 /\
  (errorGyroIf st').[a] = F32.zero /\
  F32.is_zero (lux_lastError st').[a] = true /\
  F32.is_zero (lux_delta1 st').[a] = true /\
  F32.is_zero (lux_delta2 st').[a] = true.
Proof.
  intros Hp Hd Hh HR HT HT' HP HI HD Hw Hacc HL H1 H2 H.
  destruct (lux_cycle_inv F filter env p r m rx st st' dz a H) as (h' & E & K).
  rewrite Hh in E. injection E as <-. cbv zeta in K.
  destruct K as (KF & KP & KT & KD & KO & KL & K1 & K2 & _).
  rewrite Hacc, (lux_errorGyroIf_zero env p _ a HR HT HI) in KF.
  assert (Zdelta : F32.is_zero
                     (lux_delta_val env (lux_RateError env p r m h a) (lux_lastError st).[a])
                   = true).
  { unfold lux_delta_val. apply fmul_zero_l; [|exact HT'].
    apply fsub_zero; assumption. }
  assert (ZP : F32.is_zero
                 (fst (lux_PTerm filter env p (lux_RateError env p r m h a) a
                         (PTermState st).[a])) = true).
  { unfold lux_PTerm. rewrite Hp. cbn [nonzero Z.eqb negb fst].
    apply fdiv_zero_l. apply fmul_zero_l; [|apply of_Z_u8_finite; exact Hw].
    apply fmul_zero_l; assumption. }
  assert (ZD : F32.is_zero
                 (lux_DTerm env p
                    (fst (lux_deltaSum filter env p (lux_delta1 st).[a] (lux_delta2 st).[a]
                            (lux_delta_val env (lux_RateError env p r m h a)
                               (lux_lastError st).[a]) (DTermState st).[a])) a) = true).
  { apply lux_DTerm_zero; [|exact HD|exact Hw].
    unfold lux_deltaSum. rewrite Hd. cbn [nonzero Z.eqb negb fst].
    apply fadd_zero; [apply fadd_zero; assumption | exact Zdelta]. }
  split_all.
  - rewrite KO, KF. rewrite lrintf_zero; [reflexivity|].
    apply fadd_zero; [apply fadd_zero; [exact ZP | reflexivity] | exact ZD].
  - rewrite KP. apply to_i32_zero. exact ZP.
  - rewrite KT, KF. reflexivity.
  - rewrite KD. apply to_i32_zero. exact ZD.
  - exact KF.
  - rewrite KL. exact HR.
  - rewrite K1. exact Zdelta.
  - rewrite K2. exact H1.
Qed.

End RestLux.

Lemma lux_rest_is_fixed_witness :
  exists st',
    pidLuxFloat Pt1.filterApplyPt1 Inputs.env_gyro3 Sample.profile0 Sample.rates0 500
      Sample.rx0 Sample.init = Ok st' false /\
    (axisPID st').[PITCH] = 0 /\ (errorGyroIf st').[PITCH] = F32.zero.
Proof.
  eexists. split; [vm_compute; reflexivity|].
  match goal with
  | |- (axisPID ?s).[_] = _ /\ _ =>
      pose proof (lux_rest_is_fixed _ Pt1.filterApplyPt1 Inputs.env_gyro3 Sample.profile0
                    Sample.rates0 500 Sample.rx0 Sample.init s false PITCH F32.one) as K
  end.
  destruct K as (A & _ & _ & _ & B & _).
  - reflexivity.
  - reflexivity.
  - reflexivity.
  - vm_compute. reflexivity.
  - reflexivity.
  - vm_compute. reflexivity.
  - reflexivity.
  - reflexivity.
  - reflexivity.
  - by_computation.
  - reflexivity.
  - reflexivity.
  - reflexivity.
  - reflexivity.
  - vm_compute. reflexivity.
  - split; [exact A | exact B].
Defined.
